(** * inventory_system.py: a shallow embedding and its properties

    The module keeps one process-wide dictionary [stock_data] and offers
    [add_item], [remove_item], [get_qty], [check_low_items], [print_data],
    [load_data] and [save_data].  Every function is embedded as a
    computation over an explicit [world]: the dictionary, the records
    handed to the [logging] module, and the files on disk.

    Python values are embedded as [pyval].  A [str] is held as a
    [string] of bytes: its code points in UTF-8, a surrogate code point
    (which a Python [str] may hold on its own) as the three bytes UTF-8
    would give it.  Byte order is code point order, and the characters
    the code looks at (quotes, backslash, control characters, digits)
    are single bytes.  Integers are unbounded ([Z]).  Floats are not
    represented: binary64 arithmetic, [repr] and the parsing of float
    literals are outside this development, and the JSON decoder answers
    [Unmodelled] where it would have to build one.  Files hold text;
    writing text with a surrogate fails as the [utf-8] codec does.  The
    translation of line ends, files whose bytes are no text, and the
    interpreter's limits on recursion depth and on the digits of an
    integer turned into text are not represented. *)

From Stdlib Require Import ZArith List String Ascii Bool Lia.
From Stdlib Require Import DecimalString.
From Stdlib Require DecimalFacts DecimalPos.
Import ListNotations.

Local Open Scope string_scope.
Local Open Scope Z_scope.

(** ** Python values *)

#[warnings="-register-all"]
Inductive pyval : Type :=
| PNone
| PBool (b : bool)
| PInt (z : Z)
| PStr (s : string)
| PList (l : list pyval)
| PDict (d : list (string * pyval)).

(** A [dict] in insertion order.  Keys of every dictionary this module
    meets are strings: [add_item] checks it and a JSON object has no
    other. *)
Definition dict := list (string * pyval).

Inductive pytype := TNoneType | TBool | TInt | TStr | TList | TDict.

Definition type_of (v : pyval) : pytype :=
  match v with
  | PNone => TNoneType
  | PBool _ => TBool
  | PInt _ => TInt
  | PStr _ => TStr
  | PList _ => TList
  | PDict _ => TDict
  end.

(** [isinstance(v, str)] *)
Definition isinstance_str (v : pyval) : bool :=
  match v with PStr _ => true | _ => false end.

(** [isinstance(v, int)]: [bool] is a subclass of [int]. *)
Definition isinstance_int (v : pyval) : bool :=
  match v with PInt _ | PBool _ => true | _ => false end.

(** [isinstance(v, dict)] *)
Definition isinstance_dict (v : pyval) : bool :=
  match v with PDict _ => true | _ => false end.

(** The integer an [int] instance stands for ([True] is 1, [False] is 0). *)
Definition int_value (v : pyval) : option Z :=
  match v with
  | PInt z => Some z
  | PBool b => Some (Z.b2z b)
  | _ => None
  end.

(** Truth value of a string: [not item] holds for the empty string only. *)
Definition str_truthy (s : string) : bool :=
  match s with EmptyString => false | String _ _ => true end.

(** ** Dictionaries *)

Module Dict.

Fixpoint get (k : string) (d : dict) : option pyval :=
  match d with
  | [] => None
  | (k', v) :: d' => if String.eqb k k' then Some v else get k d'
  end.

(** [d.get(k, dflt)] *)
Definition get_default (k : string) (dflt : pyval) (d : dict) : pyval :=
  match get k d with Some v => v | None => dflt end.

(** [d[k] = v]: an existing key keeps its place, a new one goes last. *)
Fixpoint set (k : string) (v : pyval) (d : dict) : dict :=
  match d with
  | [] => [(k, v)]
  | (k', v') :: d' =>
      if String.eqb k k' then (k', v) :: d' else (k', v') :: set k v d'
  end.

(** [del d[k]] on a present key. *)
Fixpoint del (k : string) (d : dict) : dict :=
  match d with
  | [] => []
  | (k', v') :: d' =>
      if String.eqb k k' then del k d' else (k', v') :: del k d'
  end.

Definition keys (d : dict) : list string := map fst d.

(** [d.update(other)] *)
Definition update (other d : dict) : dict :=
  fold_left (fun acc kv => set (fst kv) (snd kv) acc) other d.

(** Keys of a Python dictionary are pairwise distinct. *)
Definition wf (d : dict) : Prop := NoDup (keys d).

End Dict.

(** ** Exceptions, outcomes and the world *)

Inductive exn :=
| KeyError
| TypeError
| FileNotFoundError
| PermissionError
| JSONDecodeError
| UnicodeEncodeError.

(** [except OSError] catches its subclasses; [UnicodeEncodeError] and
    [JSONDecodeError] are [ValueError]s. *)
Definition is_OSError (e : exn) : bool :=
  match e with FileNotFoundError | PermissionError => true | _ => false end.

Definition exn_eqb (a b : exn) : bool :=
  match a, b with
  | KeyError, KeyError | TypeError, TypeError
  | FileNotFoundError, FileNotFoundError
  | PermissionError, PermissionError
  | JSONDecodeError, JSONDecodeError
  | UnicodeEncodeError, UnicodeEncodeError => true
  | _, _ => false
  end.

(** What a call does: it returns, it raises, or it leaves the fragment of
    Python this development represents. *)
Inductive outcome (A : Type) : Type :=
| Return (a : A)
| Raise (e : exn)
| Unmodelled.
Arguments Return {A} a.
Arguments Raise {A} e.
Arguments Unmodelled {A}.

Inductive level := INFO | WARNING | ERROR.

Inductive logarg :=
| AVal (v : pyval)
| AType (t : pytype).

(** One call into [logging]: severity, format string, arguments, and
    whether the active exception is attached ([logging.exception]). *)
Record record := mkRecord {
  r_level : level;
  r_msg : string;
  r_args : list logarg;
  r_exc : option exn
}.

(** What a path names: nothing, in a directory that exists ([Absent]);
    nothing that could be created, its directory missing
    ([NoDirectory]); something that cannot be opened ([Locked]); a text
    file, [text] being what the [utf-8] codec reads from it; or a file
    a failed write cut short ([Torn]). *)
Inductive node :=
| Absent
| NoDirectory
| Locked
| File (text : string)
| Torn.

Record world := mkWorld {
  stock_data : dict;
  log : list record;
  files : string -> node
}.

Definition M (A : Type) : Type := world -> outcome A * world.

Definition ret {A} (a : A) : M A := fun w => (Return a, w).

Definition bind {A B} (m : M A) (k : A -> M B) : M B :=
  fun w =>
    match m w with
    | (Return a, w') => k a w'
    | (Raise e, w') => (Raise e, w')
    | (Unmodelled, w') => (Unmodelled, w')
    end.

Definition raise {A} (e : exn) : M A := fun w => (Raise e, w).

(** [try: m  except <handles>: h] *)
Definition try_except {A} (m : M A) (handles : exn -> bool) (h : exn -> M A)
  : M A :=
  fun w =>
    match m w with
    | (Raise e, w') => if handles e then h e w' else (Raise e, w')
    | r => r
    end.

Definition lift {A} (o : outcome A) : M A := fun w => (o, w).

Declare Scope py_scope.
Delimit Scope py_scope with py.
Notation "x <- m ;; k" := (bind m (fun x => k))
  (at level 61, m at next level, right associativity) : py_scope.
Notation "m ;; k" := (bind m (fun _ => k))
  (at level 61, right associativity) : py_scope.
Local Open Scope py_scope.

Definition get_stock : M dict := fun w => (Return (stock_data w), w).

Definition put_stock (d : dict) : M unit :=
  fun w => (Return tt, mkWorld d (log w) (files w)).

Definition emit (r : record) : M unit :=
  fun w => (Return tt, mkWorld (stock_data w) (log w ++ [r])%list (files w)).

Definition logging_info (msg : string) (args : list logarg) : M unit :=
  emit (mkRecord INFO msg args None).
Definition logging_warning (msg : string) (args : list logarg) : M unit :=
  emit (mkRecord WARNING msg args None).
Definition logging_error (msg : string) (args : list logarg) : M unit :=
  emit (mkRecord ERROR msg args None).
(** [logging.exception] inside the handler of [e]. *)
Definition logging_exception (e : exn) (msg : string) (args : list logarg)
  : M unit :=
  emit (mkRecord ERROR msg args (Some e)).

(** [stock_data[k]] *)
Definition getitem (k : string) : M pyval :=
  d <- get_stock ;;
  match Dict.get k d with
  | Some v => ret v
  | None => raise KeyError
  end.

(** [stock_data[k] = v] *)
Definition setitem (k : string) (v : pyval) : M unit :=
  d <- get_stock ;; put_stock (Dict.set k v d).

(** [del stock_data[k]] *)
Definition delitem (k : string) : M unit :=
  d <- get_stock ;;
  match Dict.get k d with
  | Some _ => put_stock (Dict.del k d)
  | None => raise KeyError
  end.

(** ** Operators *)

Definition str_of_Z (z : Z) : string := NilZero.string_of_int (Z.to_int z).

(** [str(v)] of an [int] instance [v] whose integer is [q]: a [bool]
    prints as its name, an [int] in decimal. *)
Definition str_of_int_instance (v : pyval) (q : Z) : string :=
  match v with
  | PBool true => "True"
  | PBool false => "False"
  | _ => str_of_Z q
  end.

(** [a == b]; it never raises on these values. *)
Fixpoint py_eq (a b : pyval) {struct a} : bool :=
  match a, b with
  | PNone, PNone => true
  | (PInt _ | PBool _), (PInt _ | PBool _) =>
      match int_value a, int_value b with
      | Some x, Some y => Z.eqb x y
      | _, _ => false
      end
  | PStr s, PStr t => String.eqb s t
  | PList l, PList m =>
      (fix all2 (l m : list pyval) : bool :=
         match l, m with
         | [], [] => true
         | x :: l', y :: m' => py_eq x y && all2 l' m'
         | _, _ => false
         end) l m
  | PDict d, PDict e =>
      Nat.eqb (List.length d) (List.length e) &&
      (fix sub (d : list (string * pyval)) : bool :=
         match d with
         | [] => true
         | (k, v) :: d' =>
             match Dict.get k e with
             | Some w => py_eq v w && sub d'
             | None => false
             end
         end) d
  | _, _ => false
  end.

(** Lexicographic order of strings by code point. *)
Fixpoint str_lt (strict : bool) (s t : string) : bool :=
  match s, t with
  | EmptyString, EmptyString => negb strict
  | EmptyString, String _ _ => true
  | String _ _, EmptyString => false
  | String c s', String d t' =>
      if Ascii.eqb c d then str_lt strict s' t'
      else (N_of_ascii c <? N_of_ascii d)%N
  end.

(** [a < b] when [strict], [a <= b] otherwise.  Numbers compare with
    numbers, strings with strings, lists with lists; any other pair
    raises [TypeError]. *)
Fixpoint py_order (strict : bool) (a b : pyval) {struct a} : outcome bool :=
  match a, b with
  | (PInt _ | PBool _), (PInt _ | PBool _) =>
      match int_value a, int_value b with
      | Some x, Some y => Return (if strict then x <? y else x <=? y)
      | _, _ => Raise TypeError
      end
  | PStr s, PStr t => Return (str_lt strict s t)
  | PList l, PList m =>
      (fix lex (l m : list pyval) : outcome bool :=
         match l, m with
         | [], [] => Return (negb strict)
         | [], _ :: _ => Return true
         | _ :: _, [] => Return false
         | x :: l', y :: m' =>
             if py_eq x y then lex l' m' else py_order strict x y
         end) l m
  | _, _ => Raise TypeError
  end.

Definition py_lt : pyval -> pyval -> outcome bool := py_order true.
Definition py_le : pyval -> pyval -> outcome bool := py_order false.

(** [a + b] *)
Definition py_add (a b : pyval) : outcome pyval :=
  match a, b with
  | (PInt _ | PBool _), (PInt _ | PBool _) =>
      match int_value a, int_value b with
      | Some x, Some y => Return (PInt (x + y))
      | _, _ => Raise TypeError
      end
  | PStr s, PStr t => Return (PStr (s ++ t))
  | PList l, PList m => Return (PList (l ++ m)%list)
  | _, _ => Raise TypeError
  end.

(** [a - b] *)
Definition py_sub (a b : pyval) : outcome pyval :=
  match int_value a, int_value b with
  | Some x, Some y => Return (PInt (x - y))
  | _, _ => Raise TypeError
  end.

(** ** The inventory operations *)

(** [add_item(item, qty, logs)].  [logs] is [None] or the contents of the
    caller's list; [now] is the text of [datetime.now()] at the call.  The
    value returned here is the final contents of the list the local name
    [logs] is bound to (the Python function itself returns [None]). *)
Definition add_item (item qty : pyval) (logs : option (list pyval))
    (now : string) : M (list pyval) :=
  let logs := match logs with None => [] | Some l => l end in
  match item with
  | PStr name =>
      match int_value qty with
      | Some q =>
          if q <? 0 then
            logging_error
              "add_item: 'qty' must be a non-negative int (got %r). Skipping."
              [AVal qty] ;;
            ret logs
          else if negb (str_truthy name) then ret logs
          else
            d <- get_stock ;;
            v <- lift (py_add (Dict.get_default name (PInt 0) d) qty) ;;
            setitem name v ;;
            ret (logs ++ [PStr (now ++ ": Added " ++ str_of_int_instance qty q
                                    ++ " of " ++ name)])%list
      | None =>
          logging_error
            "add_item: 'qty' must be a non-negative int (got %r). Skipping."
            [AVal qty] ;;
          ret logs
      end
  | _ =>
      logging_error "add_item: 'item' must be a str (got %s). Skipping."
        [AType (type_of item)] ;;
      ret logs
  end.

(** [remove_item(item, qty)] *)
Definition remove_item (item qty : pyval) : M unit :=
  match item with
  | PStr name =>
      match int_value qty with
      | Some q =>
          if q <=? 0 then
            logging_error
              "remove_item: 'qty' must be a positive int (got %r). Skipping."
              [AVal qty]
          else
            try_except
              (v <- getitem name ;;
               v' <- lift (py_sub v qty) ;;
               setitem name v' ;;
               cur <- getitem name ;;
               b <- lift (py_le cur (PInt 0)) ;;
               if b then delitem name else ret tt)
              (exn_eqb KeyError)
              (fun _ =>
                 logging_warning "remove_item: item '%s' not found in stock."
                   [AVal item])
      | None =>
          logging_error
            "remove_item: 'qty' must be a positive int (got %r). Skipping."
            [AVal qty]
      end
  | _ =>
      logging_error "remove_item: 'item' must be a str (got %s). Skipping."
        [AType (type_of item)]
  end.

(** [get_qty(item)] *)
Definition get_qty (item : pyval) : M pyval :=
  match item with
  | PStr name =>
      d <- get_stock ;; ret (Dict.get_default name (PInt 0) d)
  | _ =>
      logging_error "get_qty: 'item' must be a str (got %s)."
        [AType (type_of item)] ;;
      ret (PInt 0)
  end.

(** The loop of [print_data] over the keys still to visit. *)
Fixpoint print_lines (ks : list string) : M unit :=
  match ks with
  | [] => ret tt
  | i :: ks' =>
      d <- get_stock ;;
      logging_info "%s -> %s"
        [AVal (PStr i); AVal (Dict.get_default i PNone d)] ;;
      print_lines ks'
  end.

(** [print_data()] *)
Definition print_data : M unit :=
  logging_info "Items Report" [] ;;
  d <- get_stock ;;
  print_lines (Dict.keys d).

(** The loop of [check_low_items]: [result] accumulates the names. *)
Fixpoint low_loop (threshold : pyval) (ks : list string) (result : list string)
  : M (list string) :=
  match ks with
  | [] => ret result
  | i :: ks' =>
      d <- get_stock ;;
      b <- lift (py_lt (Dict.get_default i (PInt 0) d) threshold) ;;
      low_loop threshold ks' (if b then (result ++ [i])%list else result)
  end.

(** [check_low_items(threshold)] *)
Definition check_low_items (threshold : pyval) : M (list string) :=
  d <- get_stock ;;
  low_loop threshold (Dict.keys d) [].

Definition default_threshold : pyval := PInt 5.

(** The defaults of [add_item]: [item="default"], [qty=0]. *)
Definition default_item : pyval := PStr "default".
Definition default_qty : pyval := PInt 0.

(** ** Sequences of operations *)

Inductive op :=
| Add (item qty : pyval) (logs : option (list pyval)) (now : string)
| Remove (item qty : pyval).

Definition run_op (o : op) : M unit :=
  match o with
  | Add item qty logs now => add_item item qty logs now ;; ret tt
  | Remove item qty => remove_item item qty
  end.

Fixpoint run_ops (os : list op) : M unit :=
  match os with
  | [] => ret tt
  | o :: os' => run_op o ;; run_ops os'
  end.

Definition no_files : string -> node := fun _ => Absent.

Definition empty_world : world := mkWorld [] [] no_files.

(** ** JSON text, as [json.dump(..., ensure_ascii=False, indent=2)] writes
    it and [json.load] reads it *)

Module Json.

Definition dquote : ascii := "034"%char.
Definition newline : ascii := "010"%char.

Definition hex_char (n : N) : ascii :=
  if (n <? 10)%N then ascii_of_N (48 + n) else ascii_of_N (87 + n).

(** The encoder's replacement for one character: the quote, the
    backslash and the control characters are escaped, everything else
    is written as it is. *)
Definition escape_char (c : ascii) : string :=
  match c with
  | "034"%char => String "\" (String dquote "")
  | "\"%char => "\\"
  | "008"%char => "\b"
  | "012"%char => "\f"
  | "010"%char => "\n"
  | "013"%char => "\r"
  | "009"%char => "\t"
  | _ =>
      if (N_of_ascii c <? 32)%N then
        "\u00" ++ String (hex_char (N_of_ascii c / 16))
                    (String (hex_char (N_of_ascii c mod 16)) "")
      else String c ""
  end.

Fixpoint escape (s : string) : string :=
  match s with
  | EmptyString => ""
  | String c s' => escape_char c ++ escape s'
  end.

Definition encode_str (s : string) : string :=
  String dquote (escape s ++ String dquote "").

Fixpoint spaces (n : nat) : string :=
  match n with O => "" | S n' => String " " (spaces n') end.

(** A line break followed by the indentation of nesting level [lvl]. *)
Definition newline_indent (lvl : nat) : string :=
  String newline (spaces (2 * lvl)).

(** The text of [v] at nesting level [lvl]. *)
Fixpoint encode (lvl : nat) (v : pyval) {struct v} : string :=
  match v with
  | PNone => "null"
  | PBool true => "true"
  | PBool false => "false"
  | PInt z => str_of_Z z
  | PStr s => encode_str s
  | PList [] => "[]"
  | PList (x :: l) =>
      "[" ++ newline_indent (S lvl) ++ encode (S lvl) x ++
      (fix more (l : list pyval) : string :=
         match l with
         | [] => ""
         | y :: l' =>
             "," ++ newline_indent (S lvl) ++ encode (S lvl) y ++ more l'
         end) l ++
      newline_indent lvl ++ "]"
  | PDict [] => "{}"
  | PDict ((k, x) :: d) =>
      "{" ++ newline_indent (S lvl) ++
      encode_str k ++ ": " ++ encode (S lvl) x ++
      (fix more (d : list (string * pyval)) : string :=
         match d with
         | [] => ""
         | (k', y) :: d' =>
             "," ++ newline_indent (S lvl) ++
             encode_str k' ++ ": " ++ encode (S lvl) y ++ more d'
         end) d ++
      newline_indent lvl ++ "}"
  end.

Definition dumps (v : pyval) : string := encode 0 v.

(** *** Decoding *)

Inductive presult (A : Type) : Type :=
| Parsed (a : A) (rest : string)
| Malformed
| Unsupported.
Arguments Parsed {A} a rest.
Arguments Malformed {A}.
Arguments Unsupported {A}.

Definition is_ws (c : ascii) : bool :=
  match c with
  | " "%char | "009"%char | "010"%char | "013"%char => true
  | _ => false
  end.

Fixpoint skip_ws (s : string) : string :=
  match s with
  | String c s' => if is_ws c then skip_ws s' else s
  | EmptyString => s
  end.

Definition is_digit (c : ascii) : bool :=
  (48 <=? N_of_ascii c)%N && (N_of_ascii c <=? 57)%N.

Definition hex_value (c : ascii) : option N :=
  let n := N_of_ascii c in
  if (48 <=? n)%N && (n <=? 57)%N then Some (n - 48)%N
  else if (97 <=? n)%N && (n <=? 102)%N then Some (n - 87)%N
  else if (65 <=? n)%N && (n <=? 70)%N then Some (n - 55)%N
  else None.

Definition hex4 (a b c d : ascii) : option N :=
  match hex_value a, hex_value b, hex_value c, hex_value d with
  | Some x, Some y, Some z, Some t =>
      Some (((x * 16 + y) * 16 + z) * 16 + t)%N
  | _, _, _, _ => None
  end.

(** The character a one-letter escape stands for. *)
Definition unescape (e : ascii) : option ascii :=
  match e with
  | "034"%char => Some dquote
  | "\"%char => Some "\"%char
  | "/"%char => Some "/"%char
  | "b"%char => Some "008"%char
  | "f"%char => Some "012"%char
  | "n"%char => Some "010"%char
  | "r"%char => Some "013"%char
  | "t"%char => Some "009"%char
  | _ => None
  end.

Definition prepend (c : ascii) (r : presult string) : presult string :=
  match r with
  | Parsed s rest => Parsed (String c s) rest
  | Malformed => Malformed
  | Unsupported => Unsupported
  end.

(** The body of a string literal, from just after its opening quote.
    Only the [\u] escapes of one-byte code points are represented. *)
Fixpoint scanstring (s : string) : presult string :=
  match s with
  | EmptyString => Malformed
  | String c s' =>
      if Ascii.eqb c dquote then Parsed "" s'
      else if Ascii.eqb c "\" then
        match s' with
        | EmptyString => Malformed
        | String e s'' =>
            if Ascii.eqb e "u" then
              match s'' with
              | String h1 (String h2 (String h3 (String h4 s3))) =>
                  match hex4 h1 h2 h3 h4 with
                  | Some n =>
                      if (n <? 128)%N
                      then prepend (ascii_of_N n) (scanstring s3)
                      else Unsupported
                  | None => Malformed
                  end
              | _ => Malformed
              end
            else
              match unescape e with
              | Some ch => prepend ch (scanstring s'')
              | None => Malformed
              end
        end
      else if (N_of_ascii c <? 32)%N then Malformed
      else prepend c (scanstring s')
  end.

(** The digits at the head of [s], as a decimal numeral, and what
    follows them. *)
Fixpoint scan_digits (s : string) : Decimal.uint * string :=
  match s with
  | String c s' =>
      if is_digit c then
        let (u, rest) := scan_digits s' in
        (match c with
         | "0"%char => Decimal.D0 u | "1"%char => Decimal.D1 u
         | "2"%char => Decimal.D2 u | "3"%char => Decimal.D3 u
         | "4"%char => Decimal.D4 u | "5"%char => Decimal.D5 u
         | "6"%char => Decimal.D6 u | "7"%char => Decimal.D7 u
         | "8"%char => Decimal.D8 u | _ => Decimal.D9 u
         end, rest)
      else (Decimal.Nil, s)
  | EmptyString => (Decimal.Nil, s)
  end.

Definition starts_with_digit (s : string) : bool :=
  match s with String c _ => is_digit c | EmptyString => false end.

(** Does a fraction or an exponent follow the integer part?  Then the
    literal is a float. *)
Definition float_follows (s : string) : bool :=
  match s with
  | String "."%char s' => starts_with_digit s'
  | String ("e" | "E")%char s' =>
      match s' with
      | String ("+" | "-")%char s'' => starts_with_digit s''
      | _ => starts_with_digit s'
      end
  | _ => false
  end.

(** The integer part [0|[1-9][0-9]*] of a number, without its sign. *)
Definition scan_natural (s : string) : option (Z * string) :=
  match s with
  | String "0"%char s' => Some (0, s')
  | String c _ =>
      if is_digit c then
        let (u, rest) := scan_digits s in Some (Z.of_uint u, rest)
      else None
  | EmptyString => None
  end.

(** The unsigned part of a number and the test for a float. *)
Definition finish_number (neg : bool) (body : string) : presult pyval :=
  match scan_natural body with
  | Some (n, rest) =>
      if float_follows rest then Unsupported
      else Parsed (PInt (if neg then - n else n)) rest
  | None => Malformed
  end.

Definition scan_number (s : string) : presult pyval :=
  match s with
  | String "-"%char s' => finish_number true s'
  | _ => finish_number false s
  end.

Fixpoint strip_prefix (p s : string) : option string :=
  match p, s with
  | EmptyString, _ => Some s
  | String a p', String b s' =>
      if Ascii.eqb a b then strip_prefix p' s' else None
  | String _ _, EmptyString => None
  end.

(** A value that is neither a string, an object nor an array. *)
Definition scan_atom (s : string) : presult pyval :=
  match strip_prefix "null" s with
  | Some rest => Parsed PNone rest
  | None =>
  match strip_prefix "true" s with
  | Some rest => Parsed (PBool true) rest
  | None =>
  match strip_prefix "false" s with
  | Some rest => Parsed (PBool false) rest
  | None =>
  match scan_number s with
  | Malformed =>
      match strip_prefix "NaN" s, strip_prefix "Infinity" s,
            strip_prefix "-Infinity" s with
      | None, None, None => Malformed
      | _, _, _ => Unsupported
      end
  | r => r
  end end end end.

(** One value at the head of [s]; [fuel] bounds the calls still
    allowed, and running out of it is [Unsupported]. *)
Fixpoint scan_value (fuel : nat) (s : string) {struct fuel}
  : presult pyval :=
  match fuel with
  | O => Unsupported
  | S f =>
      match s with
      | String "{"%char s1 =>
          match skip_ws s1 with
          | String "}"%char s2 => Parsed (PDict []) s2
          | String "034"%char s2 => scan_members f [] s2
          | _ => Malformed
          end
      | String "["%char s1 =>
          match skip_ws s1 with
          | String "]"%char s2 => Parsed (PList []) s2
          | s2 => scan_elements f [] s2
          end
      | String "034"%char s1 =>
          match scanstring s1 with
          | Parsed t rest => Parsed (PStr t) rest
          | Malformed => Malformed
          | Unsupported => Unsupported
          end
      | _ => scan_atom s
      end
  end

(** The members of an object, from just after the opening quote of a
    key; [acc] is the dictionary built so far. *)
with scan_members (fuel : nat) (acc : dict) (s : string) {struct fuel}
  : presult pyval :=
  match fuel with
  | O => Unsupported
  | S f =>
      match scanstring s with
      | Parsed key s1 =>
          match skip_ws s1 with
          | String ":"%char s2 =>
              match scan_value f (skip_ws s2) with
              | Parsed v s3 =>
                  let acc' := Dict.set key v acc in
                  match skip_ws s3 with
                  | String "}"%char s4 => Parsed (PDict acc') s4
                  | String ","%char s4 =>
                      match skip_ws s4 with
                      | String "034"%char s5 => scan_members f acc' s5
                      | _ => Malformed
                      end
                  | _ => Malformed
                  end
              | Malformed => Malformed
              | Unsupported => Unsupported
              end
          | _ => Malformed
          end
      | Malformed => Malformed
      | Unsupported => Unsupported
      end
  end

(** The elements of an array, from the start of an element; [acc] holds
    the elements read so far. *)
with scan_elements (fuel : nat) (acc : list pyval) (s : string)
  {struct fuel} : presult pyval :=
  match fuel with
  | O => Unsupported
  | S f =>
      match scan_value f s with
      | Parsed v s1 =>
          let acc' := (acc ++ [v])%list in
          match skip_ws s1 with
          | String "]"%char s2 => Parsed (PList acc') s2
          | String ","%char s2 => scan_elements f acc' (skip_ws s2)
          | _ => Malformed
          end
      | Malformed => Malformed
      | Unsupported => Unsupported
      end
  end.

Inductive decoded :=
| Decoded (v : pyval)
| DecodeError
| NotRepresented.

(** Fuel that no text exhausts: a value costs at most two calls for each
    of its characters. *)
Definition fuel_for (s : string) : nat := S (2 * String.length s).

(** [json.loads(s)]: one value, white space around it, nothing else. *)
Definition loads (s : string) : decoded :=
  match scan_value (fuel_for s) (skip_ws s) with
  | Parsed v rest =>
      match skip_ws rest with
      | EmptyString => Decoded v
      | String _ _ => DecodeError
      end
  | Malformed => DecodeError
  | Unsupported => NotRepresented
  end.

End Json.

(** ** Text and its encoding *)

(** The first byte of a surrogate in UTF-8 is [0xED] ... *)
Definition is_lead (c : ascii) : bool := Ascii.eqb c "237".

(** ... and its second byte lies in [0xA0..0xBF]. *)
Definition is_trail (c : ascii) : bool :=
  (160 <=? N_of_ascii c)%N && (N_of_ascii c <=? 191)%N.

Definition starts_with_trail (s : string) : bool :=
  match s with String c _ => is_trail c | EmptyString => false end.

(** The text holds a surrogate code point: the [utf-8] codec refuses to
    encode it. *)
Fixpoint has_surrogate (s : string) : bool :=
  match s with
  | EmptyString => false
  | String c s' => (is_lead c && starts_with_trail s') || has_surrogate s'
  end.

(** ** Persistence *)

(** [open(file, "r")] followed by [f.read()].  A file cut short by a
    failed write holds the start of an object's text and no more; how
    much depends on the interpreter, and [json.load] rejects every such
    start, so reading it is given the error of that decoding. *)
Definition read_text (file : string) : M string :=
  fun w =>
    match files w file with
    | File text => (Return text, w)
    | Absent | NoDirectory => (Raise FileNotFoundError, w)
    | Locked => (Raise PermissionError, w)
    | Torn => (Raise JSONDecodeError, w)
    end.

Definition put_file (file : string) (n : node) : M unit :=
  fun w =>
    (Return tt,
     mkWorld (stock_data w) (log w)
       (fun p => if String.eqb p file then n else files w p)).

(** [open(file, "w")] followed by the writes of [text].  The empty name
    and a name in a missing directory cannot be opened.  Once the file
    is open it is emptied; text with a surrogate then fails to encode
    and leaves the file cut short. *)
Definition write_text (file text : string) : M unit :=
  fun w =>
    if String.eqb file "" then (Raise FileNotFoundError, w)
    else
      match files w file with
      | Locked => (Raise PermissionError, w)
      | NoDirectory => (Raise FileNotFoundError, w)
      | Absent | File _ | Torn =>
          if has_surrogate text
          then (put_file file Torn ;; raise UnicodeEncodeError) w
          else put_file file (File text) w
      end.

(** [json.load(f)] on the text read from [f] *)
Definition json_load (text : string) : M pyval :=
  match Json.loads text with
  | Json.Decoded v => ret v
  | Json.DecodeError => raise JSONDecodeError
  | Json.NotRepresented => lift Unmodelled
  end.

(** [load_data(file)] *)
Definition load_data (file : string) : M unit :=
  r <- try_except
         (text <- read_text file ;;
          data <- json_load text ;;
          ret (Some data))
         (fun e => exn_eqb e FileNotFoundError || exn_eqb e JSONDecodeError)
         (fun e =>
            match e with
            | FileNotFoundError =>
                logging_warning
                  "load_data: file %s not found - starting with empty inventory"
                  [AVal (PStr file)] ;;
                ret None
            | _ =>
                logging_exception e "load_data: failed to decode JSON from %s"
                  [AVal (PStr file)] ;;
                ret None
            end) ;;
  match r with
  | None => ret tt
  | Some (PDict data) =>
      put_stock [] ;;
      d <- get_stock ;;
      put_stock (Dict.update data d)
  | Some _ =>
      logging_error "load_data: expected a JSON object/dict in %s"
        [AVal (PStr file)]
  end.

(** [save_data(file)] *)
Definition save_data (file : string) : M unit :=
  try_except
    (d <- get_stock ;;
     write_text file (Json.dumps (PDict d)))
    is_OSError
    (fun e =>
       logging_exception e "save_data: failed to write to %s"
         [AVal (PStr file)]).

(** [main()], without the configuration of [logging]; [t0], [t1] and
    [t2] are the clock readings of its three [add_item] calls. *)
Definition main (t0 t1 t2 : string) : M unit :=
  add_item (PStr "apple") (PInt 10) None t0 ;;
  add_item (PStr "banana") (PInt 2) None t1 ;;
  add_item (PStr "orange") (PInt 5) None t2 ;;
  remove_item (PStr "apple") (PInt 3) ;;
  remove_item (PStr "orange") (PInt 1) ;;
  q <- get_qty (PStr "apple") ;;
  logging_info "Apple stock: %s" [AVal q] ;;
  low <- check_low_items default_threshold ;;
  logging_info "Low items: %s" [AVal (PList (map PStr low))] ;;
  save_data "inventory.json" ;;
  load_data "inventory.json" ;;
  print_data.

(** ** Vocabulary of the properties *)

(** Every stored value is an integer above zero. *)
Definition all_positive (d : dict) : bool :=
  forallb (fun kv => match snd kv with PInt q => 0 <? q | _ => false end) d.

(** Every stored value is an integer, zero allowed. *)
Definition all_non_negative (d : dict) : bool :=
  forallb (fun kv => match snd kv with PInt q => 0 <=? q | _ => false end) d.

(** Every stored value is an [int] instance. *)
Definition int_valued (d : dict) : bool :=
  forallb (fun kv => isinstance_int (snd kv)) d.

(** The contents of the list [add_item] binds to [logs] on entry. *)
Definition sink (logs : option (list pyval)) : list pyval :=
  match logs with None => [] | Some l => l end.

(** [add_item]'s validation turns the call down. *)
Definition add_rejects (item qty : pyval) : bool :=
  negb (isinstance_str item) ||
  match int_value qty with
  | Some q => q <? 0
  | None => true
  end.

(** [remove_item]'s validation turns the call down. *)
Definition remove_rejects (item qty : pyval) : bool :=
  negb (isinstance_str item) ||
  match int_value qty with
  | Some q => q <=? 0
  | None => true
  end.

(** The entries whose quantity is below [t], by name, in dictionary
    order. *)
Definition below (t : Z) (d : dict) : list string :=
  map fst
    (filter (fun kv =>
               match int_value (snd kv) with
               | Some q => q <? t
               | None => false
               end) d).

(** [v < th] holds, with no exception. *)
Definition is_below (th v : pyval) : bool :=
  match py_lt v th with Return true => true | _ => false end.

(** Every stored value can be compared with [th]. *)
Definition comparable (th : pyval) (d : dict) : bool :=
  forallb (fun kv => match py_lt (snd kv) th with
                     | Return _ => true
                     | _ => false
                     end) d.

(** The records [print_data] hands to [logging] for dictionary [d]. *)
Definition report (d : dict) : list record :=
  mkRecord INFO "Items Report" [] None ::
  map (fun kv => mkRecord INFO "%s -> %s" [AVal (PStr (fst kv)); AVal (snd kv)]
                   None) d.

(** The names a report shows. *)
Definition report_names (rs : list record) : list string :=
  flat_map (fun r => match r_args r with
                     | AVal (PStr k) :: _ => [k]
                     | _ => []
                     end) rs.

(** A run of [add_item] calls on one item; each call brings its quantity,
    its log list and its clock reading. *)
Definition adds (name : string)
    (calls : list (Z * option (list pyval) * string)) : list op :=
  map (fun c => Add (PStr name) (PInt (fst (fst c))) (snd (fst c)) (snd c))
      calls.

Definition total (calls : list (Z * option (list pyval) * string)) : Z :=
  fold_right (fun c acc => fst (fst c) + acc) 0 calls.

(** Keys are distinct at every level of a value. *)
Fixpoint deep_wf (v : pyval) : Prop :=
  match v with
  | PList l =>
      (fix all (l : list pyval) : Prop :=
         match l with
         | [] => True
         | x :: l' => deep_wf x /\ all l'
         end) l
  | PDict d =>
      NoDup (map fst d) /\
      (fix all (d : list (string * pyval)) : Prop :=
         match d with
         | [] => True
         | (_, x) :: d' => deep_wf x /\ all d'
         end) d
  | _ => True
  end.

(** A stored quantity that is an integer, zero or more. *)
Definition non_negative_entry (kv : string * pyval) : Prop :=
  exists z, snd kv = PInt z /\ 0 <= z.

(** What [add_item] and [remove_item] maintain: distinct keys, and
    quantities that are integers, zero or more. *)
Definition sound (d : dict) : Prop :=
  Dict.wf d /\ Forall non_negative_entry d.

(** ** Vocabulary of the round trip *)








(** Induction over values that reaches inside lists and dictionaries. *)
Section ValueInduction.

Variable P : pyval -> Prop.
Hypothesis HNone : P PNone.
Hypothesis HBool : forall b, P (PBool b).
Hypothesis HInt : forall z, P (PInt z).
Hypothesis HStr : forall s, P (PStr s).
Hypothesis HList : forall l, Forall P l -> P (PList l).
Hypothesis HDict : forall d, Forall (fun kv => P (snd kv)) d -> P (PDict d).

Fixpoint value_induction (v : pyval) : P v :=
  match v with
  | PNone => HNone
  | PBool b => HBool b
  | PInt z => HInt z
  | PStr s => HStr s
  | PList l =>
      HList l
        ((fix all (l : list pyval) : Forall P l :=
            match l with
            | [] => Forall_nil P
            | x :: l' => Forall_cons x (value_induction x) (all l')
            end) l)
  | PDict d =>
      HDict d
        ((fix all (d : list (string * pyval))
            : Forall (fun kv => P (snd kv)) d :=
            match d with
            | [] => Forall_nil _
            | (k, x) :: d' =>
                Forall_cons (k, x) (value_induction x) (all d')
            end) d)
  end.

End ValueInduction.




(** Neither an [int] instance nor, as this development has none, a
    float: [None], a string, a list or a dictionary. *)
Definition no_number (v : pyval) : bool :=
  match v with
  | PNone | PStr _ | PList _ | PDict _ => true
  | PBool _ | PInt _ => false
  end.

(** ** Vocabulary of the further properties *)

(** What [get_qty] reports for a name. *)
Definition quantity (name : string) (w : world) : pyval :=
  Dict.get_default name (PInt 0) (stock_data w).

(** No key is the empty string. *)
Definition named (d : dict) : Prop := Forall (fun kv => fst kv <> "") d.

(** * Properties *)

(** The run of [main] from an empty inventory and an empty disk. *)
Example main_run :
  let r := main "t0" "t1" "t2" empty_world in
  fst r = Return tt /\
  stock_data (snd r) =
    [("apple", PInt 7); ("banana", PInt 2); ("orange", PInt 4)] /\
  log (snd r) =
    [mkRecord INFO "Apple stock: %s" [AVal (PInt 7)] None;
     mkRecord INFO "Low items: %s"
       [AVal (PList [PStr "banana"; PStr "orange"])] None;
     mkRecord INFO "Items Report" [] None;
     mkRecord INFO "%s -> %s" [AVal (PStr "apple"); AVal (PInt 7)] None;
     mkRecord INFO "%s -> %s" [AVal (PStr "banana"); AVal (PInt 2)] None;
     mkRecord INFO "%s -> %s" [AVal (PStr "orange"); AVal (PInt 4)] None].
Proof. repeat split; vm_compute; reflexivity. Qed.

(** ** Dictionaries *)

Section DictFacts.

Variable k : string.

Lemma get_set_same v d : Dict.get k (Dict.set k v d) = Some v.
Proof.
  induction d as [|[k' v'] d IH]; simpl.
  - now rewrite String.eqb_refl.
  - destruct (String.eqb k k') eqn:E; simpl; rewrite E; auto.
Qed.

Lemma get_set_other k' v d :
  k <> k' -> Dict.get k' (Dict.set k v d) = Dict.get k' d.
Proof.
  intros N. induction d as [|[k0 v0] d IH]; simpl.
  - destruct (String.eqb k' k) eqn:E; auto.
    apply String.eqb_eq in E. congruence.
  - destruct (String.eqb k k0) eqn:E; simpl.
    + apply String.eqb_eq in E. subst k0.
      destruct (String.eqb k' k) eqn:E'; auto.
      apply String.eqb_eq in E'. congruence.
    + now rewrite IH.
Qed.

Lemma keys_del d : ~ In k (Dict.keys (Dict.del k d)).
Proof.
  induction d as [|[k' v'] d IH]; simpl; auto.
  destruct (String.eqb k k') eqn:E; simpl; auto.
  intros [H|H]; auto. subst. now rewrite String.eqb_refl in E.
Qed.

Lemma get_none_keys d : Dict.get k d = None <-> ~ In k (Dict.keys d).
Proof.
  induction d as [|[k' v'] d IH]; simpl.
  - tauto.
  - destruct (String.eqb k k') eqn:E.
    + apply String.eqb_eq in E. subst. split; [discriminate | tauto].
    + apply String.eqb_neq in E. rewrite IH. split.
      * intros H [H'|H']; auto.
      * tauto.
Qed.

Lemma get_del_same d : Dict.get k (Dict.del k d) = None.
Proof. apply get_none_keys, keys_del. Qed.

Lemma get_In v d : Dict.get k d = Some v -> In (k, v) d.
Proof.
  induction d as [|[k' v'] d IH]; simpl; [discriminate|].
  destruct (String.eqb k k') eqn:E.
  - apply String.eqb_eq in E. intros [= ->]. subst. now left.
  - auto.
Qed.

Lemma Forall_set (P : string * pyval -> Prop) v d :
  Forall P d -> P (k, v) -> Forall P (Dict.set k v d).
Proof.
  intros H Hk. induction H as [|[k' v'] d Hx Hd IH]; simpl.
  - auto.
  - destruct (String.eqb k k') eqn:E; constructor; auto.
    apply String.eqb_eq in E. now subst.
Qed.

Lemma Forall_del (P : string * pyval -> Prop) d :
  Forall P d -> Forall P (Dict.del k d).
Proof.
  induction 1 as [|[k' v'] d Hx Hd IH]; simpl; auto.
  destruct (String.eqb k k'); auto.
Qed.

Lemma keys_set_absent v d :
  Dict.get k d = None -> Dict.set k v d = (d ++ [(k, v)])%list.
Proof.
  induction d as [|[k' v'] d IH]; simpl; auto.
  destruct (String.eqb k k'); [discriminate|].
  intros H. now rewrite IH.
Qed.

End DictFacts.

Lemma update_snoc (other : dict) : forall acc,
  NoDup (Dict.keys acc ++ Dict.keys other) ->
  Dict.update other acc = (acc ++ other)%list.
Proof.
  unfold Dict.update.
  induction other as [|[k v] other IH]; simpl; intros acc H.
  - now rewrite app_nil_r.
  - rewrite keys_set_absent.
    + rewrite IH.
      * now rewrite <- app_assoc.
      * unfold Dict.keys in *. rewrite map_app, <- app_assoc. exact H.
    + apply get_none_keys. intros Hin.
      apply NoDup_remove_2 in H. apply H, in_or_app. now left.
Qed.

Lemma update_empty (d : dict) : Dict.wf d -> Dict.update d [] = d.
Proof. intros H. now rewrite update_snoc. Qed.

Lemma del_set k v d : Dict.del k (Dict.set k v d) = Dict.del k d.
Proof.
  induction d as [|[k' v'] d IH]; simpl.
  - now rewrite String.eqb_refl.
  - destruct (String.eqb k k') eqn:E; simpl; rewrite E; congruence.
Qed.

Lemma keys_set_present k v d :
  Dict.get k d <> None -> Dict.keys (Dict.set k v d) = Dict.keys d.
Proof.
  induction d as [|[k' v'] d IH]; simpl; [congruence|].
  destruct (String.eqb k k') eqn:E; simpl; auto.
  intros H. now rewrite IH.
Qed.

Lemma wf_set k v d : Dict.wf d -> Dict.wf (Dict.set k v d).
Proof.
  unfold Dict.wf. intros H.
  destruct (Dict.get k d) eqn:G.
  - rewrite keys_set_present; congruence.
  - rewrite keys_set_absent by assumption.
    unfold Dict.keys. rewrite map_app. simpl.
    apply NoDup_app; auto.
    + constructor; [intros []|constructor].
    + intros x Hx [<-|[]]. apply (get_none_keys k d) in G. contradiction.
Qed.

Lemma keys_del_incl k d x :
  In x (Dict.keys (Dict.del k d)) -> In x (Dict.keys d).
Proof.
  induction d as [|[k' v'] d IH]; simpl; auto.
  destruct (String.eqb k k'); simpl; tauto.
Qed.

Lemma wf_del k d : Dict.wf d -> Dict.wf (Dict.del k d).
Proof.
  unfold Dict.wf. induction d as [|[k' v'] d IH]; simpl; auto.
  intros H. inversion H; subst.
  destruct (String.eqb k k'); simpl; auto.
  constructor; auto. intros Hin. apply keys_del_incl in Hin. contradiction.
Qed.

(** ** What one call does *)

Ltac run_monad :=
  repeat progress
    (unfold try_except, bind, getitem, setitem, delitem, get_stock, put_stock,
       raise, lift, ret, emit, logging_info, logging_warning, logging_error,
       logging_exception);
  cbv beta.

Lemma int_value_isinstance v :
  isinstance_int v = true <-> exists q, int_value v = Some q.
Proof.
  destruct v; simpl; split; intros H; try discriminate; eauto;
    destruct H; discriminate.
Qed.

Lemma py_add_int a b x y :
  int_value a = Some x -> int_value b = Some y ->
  py_add a b = Return (PInt (x + y)).
Proof.
  destruct a, b; simpl; intros; try discriminate;
    repeat match goal with H : Some _ = Some _ |- _ => injection H as <- end;
    reflexivity.
Qed.

Lemma py_sub_int a b x y :
  int_value a = Some x -> int_value b = Some y ->
  py_sub a b = Return (PInt (x - y)).
Proof. unfold py_sub. now intros -> ->. Qed.

Lemma py_order_int strict a b x y :
  int_value a = Some x -> int_value b = Some y ->
  py_order strict a b = Return (if strict then x <? y else x <=? y).
Proof.
  destruct a, b; simpl; intros; try discriminate;
    repeat match goal with H : Some _ = Some _ |- _ => injection H as <- end;
    reflexivity.
Qed.

(** A rejected [add_item] logs one error and touches nothing else. *)
Lemma add_item_rejected item qty logs now w :
  add_rejects item qty = true ->
  exists r,
    add_item item qty logs now w =
      (Return (sink logs),
       mkWorld (stock_data w) (log w ++ [r]) (files w)) /\
    r_level r = ERROR.
Proof.
  unfold add_rejects, add_item. intros H.
  destruct item; simpl in H |- *;
    try (eexists; split; [reflexivity | reflexivity]).
  destruct (int_value qty) as [q|].
  - rewrite H. eexists; split; reflexivity.
  - eexists; split; reflexivity.
Qed.

(** An accepted [add_item] on a named item stores the sum and appends one
    message to the list bound to [logs]. *)
Lemma add_item_accepted name qty q stored z logs now w :
  name <> "" ->
  int_value qty = Some q -> 0 <= q ->
  Dict.get_default name (PInt 0) (stock_data w) = stored ->
  int_value stored = Some z ->
  add_item (PStr name) qty logs now w =
    (Return (sink logs ++
             [PStr (now ++ ": Added " ++ str_of_int_instance qty q
                        ++ " of " ++ name)])%list,
     mkWorld (Dict.set name (PInt (z + q)) (stock_data w)) (log w) (files w)).
Proof.
  intros Hn Hq Hpos Hs Hz. unfold add_item. rewrite Hq.
  destruct (q <? 0) eqn:E; [apply Z.ltb_lt in E; lia|].
  destruct name as [|c name]; [congruence|].
  cbn [str_truthy negb].
  run_monad.
  rewrite Hs, (py_add_int _ _ _ _ Hz Hq). reflexivity.
Qed.

(** [add_item] with the empty name and a valid quantity does nothing. *)
Lemma add_item_empty_name qty q logs now w :
  int_value qty = Some q -> 0 <= q ->
  add_item (PStr "") qty logs now w = (Return (sink logs), w).
Proof.
  intros Hq Hpos. unfold add_item. rewrite Hq.
  destruct (q <? 0) eqn:E; [apply Z.ltb_lt in E; lia|]. reflexivity.
Qed.

Lemma remove_item_rejected item qty w :
  remove_rejects item qty = true ->
  exists r,
    remove_item item qty w =
      (Return tt, mkWorld (stock_data w) (log w ++ [r]) (files w)) /\
    r_level r = ERROR.
Proof.
  unfold remove_rejects, remove_item. intros H.
  destruct item; simpl in H |- *;
    try (eexists; split; [reflexivity | reflexivity]).
  destruct (int_value qty) as [q|].
  - rewrite H. eexists; split; reflexivity.
  - eexists; split; reflexivity.
Qed.

(** [remove_item] on a name the dictionary lacks logs one warning. *)
Lemma remove_item_missing name qty q w :
  int_value qty = Some q -> 0 < q ->
  Dict.get name (stock_data w) = None ->
  remove_item (PStr name) qty w =
    (Return tt,
     mkWorld (stock_data w)
       (log w ++ [mkRecord WARNING "remove_item: item '%s' not found in stock."
                    [AVal (PStr name)] None])
       (files w)).
Proof.
  intros Hq Hpos Hg. unfold remove_item. rewrite Hq.
  destruct (q <=? 0) eqn:E; [apply Z.leb_le in E; lia|].
  run_monad. rewrite Hg. reflexivity.
Qed.

(** [remove_item] on a stored integer: the difference is kept when it is
    above zero, and the entry goes otherwise. *)
Lemma remove_item_found name qty q stored z w :
  int_value qty = Some q -> 0 < q ->
  Dict.get name (stock_data w) = Some stored ->
  int_value stored = Some z ->
  remove_item (PStr name) qty w =
    (Return tt,
     mkWorld (if z - q <=? 0 then Dict.del name (stock_data w)
              else Dict.set name (PInt (z - q)) (stock_data w))
       (log w) (files w)).
Proof.
  intros Hq Hpos Hg Hz. unfold remove_item. rewrite Hq.
  destruct (q <=? 0) eqn:E; [apply Z.leb_le in E; lia|].
  run_monad.
  rewrite Hg, (py_sub_int _ _ _ _ Hz Hq). cbn [stock_data log files].
  rewrite get_set_same. unfold py_le. cbn [py_order int_value].
  destruct (z - q <=? 0); cbn [stock_data log files].
  - rewrite get_set_same, del_set. reflexivity.
  - reflexivity.
Qed.

Lemma get_qty_str name w :
  get_qty (PStr name) w =
    (Return (Dict.get_default name (PInt 0) (stock_data w)), w).
Proof. reflexivity. Qed.

Lemma add_rejects_iff item qty :
  add_rejects item qty = true <->
  isinstance_str item = false \/ isinstance_int qty = false \/
  (exists q, int_value qty = Some q /\ q < 0).
Proof.
  unfold add_rejects. rewrite orb_true_iff, negb_true_iff.
  split.
  - intros [H|H]; [now left|]. right.
    destruct (int_value qty) as [q|] eqn:E.
    + right. exists q. split; auto. now apply Z.ltb_lt.
    + left. destruct qty; simpl in *; congruence.
  - intros [H|[H|[q [E H]]]]; [now left| |]; right.
    + destruct qty; simpl in *; congruence.
    + rewrite E. now apply Z.ltb_lt.
Qed.

Lemma remove_rejects_iff item qty :
  remove_rejects item qty = true <->
  isinstance_str item = false \/ isinstance_int qty = false \/
  (exists q, int_value qty = Some q /\ q <= 0).
Proof.
  unfold remove_rejects. rewrite orb_true_iff, negb_true_iff.
  split.
  - intros [H|H]; [now left|]. right.
    destruct (int_value qty) as [q|] eqn:E.
    + right. exists q. split; auto. now apply Z.leb_le.
    + left. destruct qty; simpl in *; congruence.
  - intros [H|[H|[q [E H]]]]; [now left| |]; right.
    + destruct qty; simpl in *; congruence.
    + rewrite E. now apply Z.leb_le.
Qed.

(** ** Invariant of the quantities *)


Lemma all_non_negative_Forall d :
  all_non_negative d = true <-> Forall non_negative_entry d.
Proof.
  unfold all_non_negative. rewrite forallb_forall, Forall_forall.
  split; intros H kv Hin; specialize (H kv Hin).
  - unfold non_negative_entry. destruct (snd kv); try discriminate.
    exists z. split; [reflexivity | now apply Z.leb_le].
  - destruct H as [z [-> Hz]]. now apply Z.leb_le.
Qed.

Lemma stored_non_negative name d :
  Forall non_negative_entry d ->
  exists z, Dict.get_default name (PInt 0) d = PInt z /\ 0 <= z.
Proof.
  intros H. unfold Dict.get_default.
  destruct (Dict.get name d) as [v|] eqn:G.
  - apply get_In in G. rewrite Forall_forall in H. exact (H _ G).
  - exists 0. split; [reflexivity | lia].
Qed.

Lemma sound_empty : sound [].
Proof. split; constructor. Qed.

Lemma add_item_keeps_sound item qty logs now w :
  sound (stock_data w) ->
  exists l w',
    add_item item qty logs now w = (Return l, w') /\
    sound (stock_data w') /\ files w' = files w.
Proof.
  intros [Hwf Inv].
  destruct (add_rejects item qty) eqn:R.
  - destruct (add_item_rejected item qty logs now w R) as [r [-> _]].
    do 2 eexists.
    split; [reflexivity | split; [split; assumption|reflexivity]].
  - unfold add_rejects in R. apply orb_false_iff in R as [Rs Rq].
    destruct item; try discriminate.
    destruct (int_value qty) as [q|] eqn:Hq; [|discriminate].
    apply Z.ltb_ge in Rq.
    destruct s as [|c s].
    + rewrite (add_item_empty_name _ _ _ _ _ Hq Rq).
      do 2 eexists.
      split; [reflexivity | split; [split; assumption|reflexivity]].
    + destruct (stored_non_negative (String c s) _ Inv) as [z [Hz Hz0]].
      rewrite (add_item_accepted (String c s) qty q (PInt z) z logs now w
                 ltac:(discriminate) Hq Rq Hz eq_refl).
      do 2 eexists. split; [reflexivity|]. cbn [stock_data files].
      split; [|reflexivity].
      split; [now apply wf_set|].
      apply Forall_set; auto.
      exists (z + q). split; [reflexivity | lia].
Qed.

Lemma remove_item_keeps_sound item qty w :
  sound (stock_data w) ->
  exists w',
    remove_item item qty w = (Return tt, w') /\
    sound (stock_data w') /\ files w' = files w /\
    (forall name, item = PStr name -> remove_rejects item qty = false ->
       Dict.get name (stock_data w') = None \/
       exists z, Dict.get name (stock_data w') = Some (PInt z) /\ 0 < z).
Proof.
  intros [Hwf Inv].
  destruct (remove_rejects item qty) eqn:R.
  - destruct (remove_item_rejected item qty w R) as [r [-> _]].
    eexists. split; [reflexivity|]. split; [split; assumption|].
    split; [reflexivity | discriminate].
  - unfold remove_rejects in R. apply orb_false_iff in R as [Rs Rq].
    destruct item; try discriminate.
    destruct (int_value qty) as [q|] eqn:Hq; [|discriminate].
    apply Z.leb_gt in Rq.
    destruct (Dict.get s (stock_data w)) as [v|] eqn:G.
    + assert (Hv : non_negative_entry (s, v)).
      { rewrite Forall_forall in Inv. apply Inv. now apply get_In. }
      destruct Hv as [z [Hz Hz0]]. simpl in Hz. subst v.
      rewrite (remove_item_found s qty q (PInt z) z w Hq Rq G eq_refl).
      eexists. split; [reflexivity|]. cbn [stock_data files].
      destruct (z - q <=? 0) eqn:E.
      * split; [split; [now apply wf_del | now apply Forall_del]|].
        split; [reflexivity|].
        intros name [= <-] _. left. apply get_del_same.
      * apply Z.leb_gt in E. split; [|split; [reflexivity|]].
        -- split; [now apply wf_set|].
           apply Forall_set; auto. exists (z - q). split; [reflexivity|lia].
        -- intros name [= <-] _. right. exists (z - q).
           split; [apply get_set_same | lia].
    + rewrite (remove_item_missing s qty q w Hq Rq G).
      eexists. split; [reflexivity|]. cbn [stock_data files].
      split; [split; assumption|]. split; [reflexivity|].
      intros name [= <-] _. now left.
Qed.

Lemma run_op_keeps_sound o w :
  sound (stock_data w) ->
  exists w',
    run_op o w = (Return tt, w') /\ sound (stock_data w') /\
    files w' = files w.
Proof.
  intros Inv. destruct o as [item qty logs now | item qty]; simpl.
  - destruct (add_item_keeps_sound item qty logs now w Inv)
      as [l [w' [E [Inv' F]]]].
    exists w'. unfold bind. rewrite E. split; [reflexivity | auto].
  - destruct (remove_item_keeps_sound item qty w Inv)
      as [w' [E [Inv' [F _]]]].
    eauto.
Qed.

(** Every run of calls from a sound inventory returns and ends in a
    sound inventory. *)
Lemma run_ops_keep_sound os : forall w,
  sound (stock_data w) ->
  exists w',
    run_ops os w = (Return tt, w') /\ sound (stock_data w') /\
    files w' = files w.
Proof.
  induction os as [|o os IH]; intros w Inv; simpl.
  - exists w. split; [reflexivity | auto].
  - destruct (run_op_keeps_sound o w Inv) as [w1 [E1 [Inv1 F1]]].
    destruct (IH w1 Inv1) as [w2 [E2 [Inv2 F2]]].
    exists w2. unfold bind. rewrite E1. split; [exact E2|].
    split; [exact Inv2 | congruence].
Qed.

(** [add_item()] with its defaults stores the entry "default" with
    quantity 0. *)
Example add_item_defaults :
  stock_data (snd (add_item default_item default_qty None "t0" empty_world)) =
    [("default", PInt 0)].
Proof. reflexivity. Qed.

(** C1, as stated, fails: adding quantity 0 of a new item leaves an entry
    whose quantity is 0, so not every entry is above zero. *)
Lemma C1_zero_quantity_entry :
  let r := run_ops [Add (PStr "apple") (PInt 0) None "t0"] empty_world in
  fst r = Return tt /\
  stock_data (snd r) = [("apple", PInt 0)] /\
  all_positive (stock_data (snd r)) = false.
Proof. repeat split. Qed.

(** C1 (amended): from the empty inventory, whatever the arguments,
    every sequence of add and remove calls returns and leaves only
    integer quantities that are zero or more; a remove call that passes
    validation leaves its item either absent or with a quantity above
    zero; and adding quantity 0 of an absent item stores an entry with
    quantity 0. *)
Theorem C1_quantities_never_negative :
  forall (os : list op) (lg : list record) (fs : string -> node),
  exists w',
    run_ops os (mkWorld [] lg fs) = (Return tt, w') /\
    all_non_negative (stock_data w') = true /\
    (forall name qty,
      remove_rejects (PStr name) qty = false ->
      exists w'',
        remove_item (PStr name) qty w' = (Return tt, w'') /\
        all_non_negative (stock_data w'') = true /\
        (Dict.get name (stock_data w'') = None \/
         exists z, Dict.get name (stock_data w'') = Some (PInt z) /\ 0 < z)) /\
    (forall name logs now,
       name <> "" -> Dict.get name (stock_data w') = None ->
       exists l w'',
         add_item (PStr name) (PInt 0) logs now w' = (Return l, w'') /\
         Dict.get name (stock_data w'') = Some (PInt 0)).
Proof.
  intros os lg fs.
  destruct (run_ops_keep_sound os (mkWorld [] lg fs) sound_empty)
    as [w' [E [Inv _]]].
  exists w'. split; [exact E|].
  split; [apply all_non_negative_Forall, Inv|].
  split.
  - intros name qty R.
    destruct (remove_item_keeps_sound (PStr name) qty w' Inv)
      as [w'' [E' [Inv' [_ Hn]]]].
    exists w''. split; [exact E'|].
    split; [apply all_non_negative_Forall, Inv'|].
    now apply Hn.
  - intros name logs now Hn Hg.
    rewrite (add_item_accepted name (PInt 0) 0 (PInt 0) 0 logs now w'
               Hn eq_refl ltac:(lia)); [| |reflexivity].
    + do 2 eexists. split; [reflexivity|]. cbn [stock_data].
      apply get_set_same.
    + unfold Dict.get_default. now rewrite Hg.
Qed.

Lemma C1_quantities_never_negative_witness :
  exists w'',
    remove_item (PStr "apple") (PInt 4)
      (snd (run_ops [Add (PStr "apple") (PInt 3) None "t0"] empty_world)) =
      (Return tt, w'') /\
    Dict.get "apple" (stock_data w'') = None.
Proof.
  destruct (C1_quantities_never_negative
              [Add (PStr "apple") (PInt 3) None "t0"] [] no_files)
    as [w' [E [_ [H _]]]].
  destruct (H "apple" (PInt 4) eq_refl) as [w'' [E' _]].
  exists w''. injection E as <-. split; [exact E'|].
  injection E' as <-. reflexivity.
Defined.

(** ** Adding *)

Lemma adds_accumulate name calls : forall w q0,
  name <> "" ->
  Forall (fun c => 0 <= fst (fst c)) calls ->
  Dict.get_default name (PInt 0) (stock_data w) = PInt q0 ->
  exists w',
    run_ops (adds name calls) w = (Return tt, w') /\
    Dict.get_default name (PInt 0) (stock_data w') = PInt (q0 + total calls) /\
    log w' = log w /\ files w' = files w.
Proof.
  induction calls as [|[[q logs] now] calls IH]; intros w q0 Hn Hq Hs.
  - exists w. simpl. rewrite Z.add_0_r. auto.
  - inversion Hq as [|c cs Hq1 Hq2]; subst. simpl in Hq1.
    change (run_ops (adds name ((q, logs, now) :: calls)) w)
      with (bind (bind (add_item (PStr name) (PInt q) logs now)
                    (fun _ => ret tt))
              (fun _ => run_ops (adds name calls)) w).
    change (total ((q, logs, now) :: calls)) with (q + total calls).
    unfold bind.
    rewrite (add_item_accepted name (PInt q) q (PInt q0) q0 logs now w
               Hn eq_refl Hq1 Hs eq_refl).
    unfold ret. cbv beta iota.
    destruct (IH (mkWorld (Dict.set name (PInt (q0 + q)) (stock_data w))
                    (log w) (files w)) (q0 + q) Hn Hq2) as [w' [E [G [L F]]]].
    { cbn [stock_data]. unfold Dict.get_default. now rewrite get_set_same. }
    exists w'. split; [exact E|]. split; [|auto].
    rewrite G. f_equal. lia.
Qed.

(** C3: after adding the quantities of a run of calls to one named item,
    [get_qty] returns what was stored before plus their sum. *)
Theorem C3_adds_accumulate :
  forall (name : string) (calls : list (Z * option (list pyval) * string))
         (w : world) (q0 : Z),
    name <> "" ->
    Forall (fun c => 0 <= fst (fst c)) calls ->
    fst (get_qty (PStr name) w) = Return (PInt q0) ->
    exists w',
      run_ops (adds name calls) w = (Return tt, w') /\
      get_qty (PStr name) w' = (Return (PInt (q0 + total calls)), w').
Proof.
  intros name calls w q0 Hn Hq Hs.
  rewrite get_qty_str in Hs. simpl in Hs. injection Hs as Hs.
  destruct (adds_accumulate name calls w q0 Hn Hq Hs) as [w' [E [G _]]].
  exists w'. split; [exact E|]. rewrite get_qty_str. now rewrite G.
Qed.

Lemma C3_adds_accumulate_witness :
  exists w',
    run_ops (adds "pear" [(2, None, "t0"); (0, Some [], "t1"); (5, None, "t2")])
      (mkWorld [("pear", PInt 4)] [] no_files) = (Return tt, w') /\
    get_qty (PStr "pear") w' = (Return (PInt (4 + 7)), w').
Proof.
  apply (C3_adds_accumulate "pear"
           [(2, None, "t0"); (0, Some [], "t1"); (5, None, "t2")]
           (mkWorld [("pear", PInt 4)] [] no_files) 4).
  - discriminate.
  - repeat constructor; simpl; lia.
  - reflexivity.
Defined.

(** C9: a valid call of [add_item] with the empty name changes nothing:
    no entry, no log record, and the list passed as [logs] keeps its
    contents. *)
Theorem C9_empty_name_is_ignored :
  forall (w : world) (qty : pyval) (q : Z) (logs : option (list pyval))
         (now : string),
    int_value qty = Some q -> 0 <= q ->
    add_item (PStr "") qty logs now w = (Return (sink logs), w).
Proof. intros. eapply add_item_empty_name; eauto. Qed.

Lemma C9_empty_name_is_ignored_witness :
  add_item (PStr "") (PInt 3) (Some [PStr "earlier"]) "t0"
    (mkWorld [("pear", PInt 4)] [] no_files) =
  (Return [PStr "earlier"], mkWorld [("pear", PInt 4)] [] no_files).
Proof.
  apply (C9_empty_name_is_ignored (mkWorld [("pear", PInt 4)] [] no_files)
           (PInt 3) 3 (Some [PStr "earlier"]) "t0").
  - reflexivity.
  - lia.
Defined.

(** ** Validation *)

(** C6: [add_item] turns down an item that is not a string and a quantity
    that is not an integer or is negative; [remove_item] turns down the
    same and a zero quantity as well.  A call turned down returns, logs
    one error and leaves inventory and files as they were. *)
Theorem C6_invalid_arguments_rejected :
  (forall item qty logs now w,
     isinstance_str item = false \/ isinstance_int qty = false \/
     (exists q, int_value qty = Some q /\ q < 0) ->
     exists r,
       add_item item qty logs now w =
         (Return (sink logs),
          mkWorld (stock_data w) (log w ++ [r]) (files w)) /\
       r_level r = ERROR) /\
  (forall item qty w,
     isinstance_str item = false \/ isinstance_int qty = false \/
     (exists q, int_value qty = Some q /\ q <= 0) ->
     exists r,
       remove_item item qty w =
         (Return tt, mkWorld (stock_data w) (log w ++ [r]) (files w)) /\
       r_level r = ERROR).
Proof.
  split.
  - intros item qty logs now w H.
    apply add_item_rejected, add_rejects_iff, H.
  - intros item qty w H.
    apply remove_item_rejected, remove_rejects_iff, H.
Qed.

Lemma C6_invalid_arguments_rejected_witness :
  (exists r,
     add_item (PInt 7) (PInt 1) None "t0"
       (mkWorld [("pear", PInt 4)] [] no_files) =
       (Return [], mkWorld [("pear", PInt 4)] [r] no_files) /\
     r_level r = ERROR) /\
  (exists r,
     remove_item (PStr "pear") (PInt 0)
       (mkWorld [("pear", PInt 4)] [] no_files) =
       (Return tt, mkWorld [("pear", PInt 4)] [r] no_files) /\
     r_level r = ERROR).
Proof.
  split.
  - apply (proj1 C6_invalid_arguments_rejected (PInt 7) (PInt 1) None "t0"
             (mkWorld [("pear", PInt 4)] [] no_files)).
    left. reflexivity.
  - apply (proj2 C6_invalid_arguments_rejected (PStr "pear") (PInt 0)
             (mkWorld [("pear", PInt 4)] [] no_files)).
    right. right. exists 0. split; [reflexivity | lia].
Defined.

(** C7: removing a name the inventory lacks returns, changes neither the
    inventory nor the files, and logs exactly one warning. *)
Theorem C7_remove_absent_item :
  forall (w : world) (name : string) (qty : pyval) (q : Z),
    int_value qty = Some q -> 0 < q ->
    Dict.get name (stock_data w) = None ->
    exists r,
      remove_item (PStr name) qty w =
        (Return tt, mkWorld (stock_data w) (log w ++ [r]) (files w)) /\
      r_level r = WARNING.
Proof.
  intros w name qty q Hq Hpos Hg.
  rewrite (remove_item_missing name qty q w Hq Hpos Hg).
  eexists. split; reflexivity.
Qed.

Lemma C7_remove_absent_item_witness :
  exists r,
    remove_item (PStr "plum") (PInt 2)
      (mkWorld [("pear", PInt 4)] [] no_files) =
      (Return tt, mkWorld [("pear", PInt 4)] [r] no_files) /\
    r_level r = WARNING.
Proof.
  apply (C7_remove_absent_item (mkWorld [("pear", PInt 4)] [] no_files)
           "plum" (PInt 2) 2).
  - reflexivity.
  - lia.
  - reflexivity.
Defined.

(** ** Queries *)

Lemma get_app_absent k d1 d2 :
  ~ In k (Dict.keys d1) -> Dict.get k (d1 ++ d2)%list = Dict.get k d2.
Proof.
  induction d1 as [|[k' v'] d1 IH]; simpl; auto.
  intros H. destruct (String.eqb k k') eqn:E.
  - apply String.eqb_eq in E. subst. tauto.
  - apply IH. tauto.
Qed.

Lemma low_loop_below th t w : forall d2 d1 acc,
  stock_data w = (d1 ++ d2)%list ->
  Dict.wf (d1 ++ d2)%list ->
  int_valued d2 = true ->
  int_value th = Some t ->
  low_loop th (Dict.keys d2) acc w = (Return (acc ++ below t d2)%list, w).
Proof.
  induction d2 as [|[k v] d2 IH]; intros d1 acc Hw Hwf Hint Ht.
  - simpl. unfold ret. now rewrite app_nil_r.
  - cbn [Dict.keys map fst low_loop].
    unfold int_valued in Hint. cbn [forallb snd] in Hint.
    apply andb_true_iff in Hint as [Hv Hint].
    apply int_value_isinstance in Hv as [q Hq].
    assert (G : Dict.get k (stock_data w) = Some v).
    { rewrite Hw, get_app_absent.
      - simpl. now rewrite String.eqb_refl.
      - unfold Dict.wf, Dict.keys in Hwf. rewrite map_app in Hwf. simpl in Hwf.
        apply NoDup_remove_2 in Hwf. intros Hin. apply Hwf, in_or_app.
        now left. }
    run_monad. unfold Dict.get_default. rewrite G.
    unfold py_lt. rewrite (py_order_int true v th q t Hq Ht).
    specialize (IH (d1 ++ [(k, v)])%list
                  (if q <? t then (acc ++ [k])%list else acc)).
    rewrite <- app_assoc in IH. specialize (IH Hw Hwf Hint Ht).
    fold (Dict.keys d2). rewrite IH. f_equal.
    unfold below. cbn [filter snd]. rewrite Hq.
    destruct (q <? t); [|reflexivity].
    cbn [map fst]. now rewrite <- app_assoc.
Qed.

Lemma low_loop_comparable th w : forall d2 d1 acc,
  stock_data w = (d1 ++ d2)%list ->
  Dict.wf (d1 ++ d2)%list ->
  comparable th d2 = true ->
  low_loop th (Dict.keys d2) acc w =
    (Return (acc ++ map fst (filter (fun kv => is_below th (snd kv)) d2))%list,
     w).
Proof.
  induction d2 as [|[k v] d2 IH]; intros d1 acc Hw Hwf Hc.
  - simpl. unfold ret. now rewrite app_nil_r.
  - cbn [Dict.keys map fst low_loop].
    unfold comparable in Hc. cbn [forallb snd] in Hc.
    apply andb_true_iff in Hc as [Hv Hc].
    assert (G : Dict.get k (stock_data w) = Some v).
    { rewrite Hw, get_app_absent.
      - simpl. now rewrite String.eqb_refl.
      - unfold Dict.wf, Dict.keys in Hwf. rewrite map_app in Hwf. simpl in Hwf.
        apply NoDup_remove_2 in Hwf. intros Hin. apply Hwf, in_or_app.
        now left. }
    run_monad. unfold Dict.get_default. rewrite G.
    cbn [filter snd]. unfold is_below at 1.
    destruct (py_lt v th) as [b| |]; try discriminate.
    specialize (IH (d1 ++ [(k, v)])%list
                  (if b then (acc ++ [k])%list else acc)).
    rewrite <- app_assoc in IH. specialize (IH Hw Hwf Hc).
    fold (Dict.keys d2). rewrite IH. f_equal.
    destruct b; [|reflexivity].
    cbn [map fst]. now rewrite <- app_assoc.
Qed.

(** A stored value that cannot be compared with the threshold makes
    [check_low_items] raise. *)
Example check_low_items_raises :
  check_low_items (PInt 5)
    (mkWorld [("apple", PInt 7); ("banana", PStr "two")] [] no_files) =
  (Raise TypeError,
   mkWorld [("apple", PInt 7); ("banana", PStr "two")] [] no_files).
Proof. reflexivity. Qed.

Lemma low_loop_incl th w : forall ks acc r w',
  low_loop th ks acc w = (Return r, w') ->
  incl r (acc ++ ks)%list /\ w' = w.
Proof.
  induction ks as [|k ks IH]; intros acc r w' H.
  - simpl in H. unfold ret in H. injection H as <- <-.
    rewrite app_nil_r. split; [apply incl_refl | reflexivity].
  - cbn [low_loop] in H. revert H. run_monad.
    destruct (py_lt (Dict.get_default k (PInt 0) (stock_data w)) th)
      as [b| |]; try discriminate.
    intros H. apply IH in H as [H ->]. split; [|reflexivity].
    intros x Hx. apply H in Hx. apply in_app_or in Hx as [Hx|Hx].
    + destruct b; [|apply in_or_app; now left].
      apply in_app_or in Hx as [Hx|[<-|[]]]; apply in_or_app;
        [now left | right; now left].
    + apply in_or_app. right. now right.
Qed.

Lemma print_lines_log : forall ks w,
  print_lines ks w =
    (Return tt,
     mkWorld (stock_data w)
       (log w ++
        map (fun k =>
               mkRecord INFO "%s -> %s"
                 [AVal (PStr k);
                  AVal (Dict.get_default k PNone (stock_data w))] None) ks)
       (files w)).
Proof.
  induction ks as [|k ks IH]; intros w.
  - simpl. unfold ret. rewrite app_nil_r. now destruct w.
  - cbn [print_lines]. run_monad. rewrite IH. cbn [stock_data log files map].
    now rewrite <- app_assoc.
Qed.

(** The records of [print_data] are those of [report]. *)
Lemma print_data_report w :
  Dict.wf (stock_data w) ->
  print_data w =
    (Return tt,
     mkWorld (stock_data w) (log w ++ report (stock_data w)) (files w)).
Proof.
  intros Hwf. unfold print_data. run_monad. rewrite print_lines_log.
  cbn [stock_data log files]. rewrite <- app_assoc. do 3 f_equal.
  unfold report. cbn [app]. f_equal.
  unfold Dict.keys. rewrite map_map.
  assert (H : forall d1 d2, stock_data w = (d1 ++ d2)%list ->
            map (fun x => mkRecord INFO "%s -> %s"
                   [AVal (PStr (fst x));
                    AVal (Dict.get_default (fst x) PNone (stock_data w))]
                   None) d2 =
            map (fun kv => mkRecord INFO "%s -> %s"
                   [AVal (PStr (fst kv)); AVal (snd kv)] None) d2).
  { intros d1 d2. revert d1.
    induction d2 as [|[k v] d2 IH]; intros d1 Hw; [reflexivity|].
    cbn [map fst snd]. f_equal.
    - unfold Dict.get_default. rewrite Hw, get_app_absent.
      + simpl. now rewrite String.eqb_refl.
      + unfold Dict.wf, Dict.keys in Hwf. rewrite Hw, map_app in Hwf.
        simpl in Hwf. apply NoDup_remove_2 in Hwf.
        intros Hin. apply Hwf, in_or_app. now left.
    - apply (IH (d1 ++ [(k, v)])%list). now rewrite <- app_assoc. }
  exact (H [] (stock_data w) eq_refl).
Qed.

(** Whatever the dictionary, the names [print_data] shows are its keys. *)
Lemma print_data_names w :
  exists rs,
    print_data w =
      (Return tt, mkWorld (stock_data w) (log w ++ rs) (files w)) /\
    report_names rs = Dict.keys (stock_data w).
Proof.
  unfold print_data. run_monad. rewrite print_lines_log.
  cbn [stock_data log files]. rewrite <- app_assoc.
  eexists. split; [reflexivity|].
  cbn [app report_names flat_map r_args].
  induction (Dict.keys (stock_data w)) as [|k ks IH]; [reflexivity|].
  cbn [map flat_map r_args app]. now rewrite IH.
Qed.

Lemma check_low_items_below w th t :
  Dict.wf (stock_data w) ->
  int_valued (stock_data w) = true ->
  int_value th = Some t ->
  check_low_items th w = (Return (below t (stock_data w)), w).
Proof.
  intros Hwf Hint Ht. unfold check_low_items. run_monad.
  exact (low_loop_below th t w (stock_data w) [] [] eq_refl Hwf Hint Ht).
Qed.

(** Whatever the values, as long as each can be compared with the
    threshold: the names of those below it, in dictionary order. *)
Lemma check_low_items_comparable w th :
  Dict.wf (stock_data w) ->
  comparable th (stock_data w) = true ->
  check_low_items th w =
    (Return (map fst (filter (fun kv => is_below th (snd kv)) (stock_data w))),
     w).
Proof.
  intros Hwf Hc. unfold check_low_items. run_monad.
  exact (low_loop_comparable th w (stock_data w) [] [] eq_refl Hwf Hc).
Qed.

Lemma check_low_items_keys w th names w' :
  check_low_items th w = (Return names, w') ->
  incl names (Dict.keys (stock_data w)) /\ w' = w.
Proof.
  unfold check_low_items. run_monad. intros H.
  now apply low_loop_incl in H.
Qed.

Lemma int_valued_del k d :
  int_valued d = true -> int_valued (Dict.del k d) = true.
Proof.
  unfold int_valued. induction d as [|[k' v'] d IH]; simpl; auto.
  intros H. apply andb_true_iff in H as [H1 H2].
  destruct (String.eqb k k'); simpl; auto.
  now rewrite H1, IH.
Qed.

(** C8: on an inventory of integer quantities, [check_low_items] returns
    the names of the entries whose quantity is below the threshold, in
    the order of the dictionary, and changes nothing; without an argument
    the threshold is 5. *)
Theorem C8_low_stock_items :
  forall (w : world) (th : pyval) (t : Z),
    Dict.wf (stock_data w) ->
    int_valued (stock_data w) = true ->
    int_value th = Some t ->
    check_low_items th w = (Return (below t (stock_data w)), w) /\
    check_low_items default_threshold w = (Return (below 5 (stock_data w)), w).
Proof.
  intros w th t Hwf Hint Ht. split.
  - now apply check_low_items_below.
  - now apply check_low_items_below.
Qed.

Lemma C8_low_stock_items_witness :
  let w := mkWorld [("apple", PInt 7); ("banana", PInt 2); ("orange", PInt 4)]
             [] no_files in
  check_low_items (PInt 3) w = (Return ["banana"], w) /\
  check_low_items default_threshold w = (Return ["banana"; "orange"], w).
Proof.
  apply (C8_low_stock_items
           (mkWorld [("apple", PInt 7); ("banana", PInt 2); ("orange", PInt 4)]
              [] no_files) (PInt 3) 3).
  - unfold Dict.wf. simpl.
    repeat constructor; simpl; intuition discriminate.
  - reflexivity.
  - reflexivity.
Defined.

(** C5: removing at least the stored quantity of a present item deletes
    its entry: [get_qty] then returns 0, and the name is neither in a
    result of [check_low_items], whatever the threshold, nor among the
    names [print_data] shows. *)
Theorem C5_remove_all_deletes_entry :
  forall (w : world) (name : string) (stored qty : pyval) (z q : Z),
    Dict.get name (stock_data w) = Some stored ->
    int_value stored = Some z ->
    int_value qty = Some q ->
    0 < q -> z <= q ->
    exists w',
      remove_item (PStr name) qty w = (Return tt, w') /\
      stock_data w' = Dict.del name (stock_data w) /\
      Dict.get name (stock_data w') = None /\
      get_qty (PStr name) w' = (Return (PInt 0), w') /\
      (forall th names w'',
         check_low_items th w' = (Return names, w'') -> ~ In name names) /\
      (forall th t,
         Dict.wf (stock_data w) -> int_valued (stock_data w) = true ->
         int_value th = Some t ->
         check_low_items th w' = (Return (below t (stock_data w')), w') /\
         ~ In name (below t (stock_data w'))) /\
      (exists rs,
         print_data w' =
           (Return tt, mkWorld (stock_data w') (log w' ++ rs) (files w')) /\
         ~ In name (report_names rs)).
Proof.
  intros w name stored qty z q Hg Hz Hq Hpos Hle.
  rewrite (remove_item_found name qty q stored z w Hq Hpos Hg Hz).
  replace (z - q <=? 0) with true by (symmetry; apply Z.leb_le; lia).
  eexists. split; [reflexivity|]. cbn [stock_data log files].
  split; [reflexivity|]. split; [apply get_del_same|].
  split.
  { rewrite get_qty_str. cbn [stock_data]. unfold Dict.get_default.
    now rewrite get_del_same. }
  split.
  { intros th names w'' H. apply check_low_items_keys in H as [H _].
    intros Hin. apply H in Hin. cbn [stock_data] in Hin.
    exact (keys_del name _ Hin). }
  split.
  { intros th t Hwf Hint Ht. split.
    - apply check_low_items_below; cbn [stock_data]; auto.
      + now apply wf_del.
      + now apply int_valued_del.
    - unfold below. intros Hin. apply in_map_iff in Hin as [[k v] [Hk Hin]].
      simpl in Hk. subst k. apply filter_In in Hin as [Hin _].
      apply (keys_del name (stock_data w)).
      unfold Dict.keys. apply in_map_iff. exists (name, v). auto. }
  destruct (print_data_names
              (mkWorld (Dict.del name (stock_data w)) (log w) (files w)))
    as [rs [E N]].
  exists rs. split; [exact E|]. rewrite N. apply keys_del.
Qed.

Lemma C5_remove_all_deletes_entry_witness :
  exists w',
    remove_item (PStr "banana") (PInt 2)
      (mkWorld [("apple", PInt 7); ("banana", PInt 2)] [] no_files) =
      (Return tt, w') /\
    stock_data w' = [("apple", PInt 7)].
Proof.
  destruct (C5_remove_all_deletes_entry
              (mkWorld [("apple", PInt 7); ("banana", PInt 2)] [] no_files)
              "banana" (PInt 2) (PInt 2) 2 2 eq_refl eq_refl eq_refl
              ltac:(lia) ltac:(lia)) as [w' [E [D _]]].
  exists w'. split; [exact E | exact D].
Defined.

(** ** Booleans as quantities *)

(** C10: a [bool] passes the integer test of both functions, and the
    validation of [add_item] accepts both booleans and that of
    [remove_item] accepts [True].  [add_item] with [True] adds 1 and with
    [False] adds 0, logging no error; [remove_item] with [True] takes 1
    away, dropping the entry when nothing above zero is left. *)
Theorem C10_booleans_pass_as_integers :
  forall (w : world) (name : string) (z : Z) (logs : option (list pyval))
         (now : string),
    name <> "" ->
    Dict.get_default name (PInt 0) (stock_data w) = PInt z ->
    (forall b, isinstance_int (PBool b) = true /\
               add_rejects (PStr name) (PBool b) = false) /\
    remove_rejects (PStr name) (PBool true) = false /\
    (exists l,
       add_item (PStr name) (PBool true) logs now w =
         (Return l,
          mkWorld (Dict.set name (PInt (z + 1)) (stock_data w))
            (log w) (files w))) /\
    (exists l,
       add_item (PStr name) (PBool false) logs now w =
         (Return l,
          mkWorld (Dict.set name (PInt (z + 0)) (stock_data w))
            (log w) (files w))) /\
    (Dict.get name (stock_data w) = Some (PInt z) ->
     remove_item (PStr name) (PBool true) w =
       (Return tt,
        mkWorld (if z - 1 <=? 0 then Dict.del name (stock_data w)
                 else Dict.set name (PInt (z - 1)) (stock_data w))
          (log w) (files w))).
Proof.
  intros w name z logs now Hn Hs.
  split; [intros []; split; reflexivity|]. split; [reflexivity|].
  split; [|split].
  - eexists.
    apply (add_item_accepted name (PBool true) 1 (PInt z) z logs now w);
      auto; lia.
  - eexists.
    apply (add_item_accepted name (PBool false) 0 (PInt z) z logs now w);
      auto; lia.
  - intros Hg.
    apply (remove_item_found name (PBool true) 1 (PInt z) z w); auto; lia.
Qed.

Lemma C10_booleans_pass_as_integers_witness :
  let w := mkWorld [("pear", PInt 4)] [] no_files in
  (exists l,
     add_item (PStr "pear") (PBool true) None "t0" w =
       (Return l, mkWorld [("pear", PInt 5)] [] no_files)) /\
  remove_item (PStr "pear") (PBool true) w =
    (Return tt, mkWorld [("pear", PInt 3)] [] no_files).
Proof.
  destruct (C10_booleans_pass_as_integers
              (mkWorld [("pear", PInt 4)] [] no_files) "pear" 4 None "t0"
              ltac:(discriminate) eq_refl) as [_ [_ [A [_ R]]]].
  split; [exact A | exact (R eq_refl)].
Defined.

(** ** Loading *)

Lemma load_data_absent file w :
  files w file = Absent ->
  load_data file w =
    (Return tt,
     mkWorld (stock_data w)
       (log w ++
        [mkRecord WARNING
           "load_data: file %s not found - starting with empty inventory"
           [AVal (PStr file)] None])
       (files w)).
Proof.
  intros H. unfold load_data, read_text. run_monad. rewrite H. reflexivity.
Qed.

Lemma load_data_malformed file text w :
  files w file = File text ->
  Json.loads text = Json.DecodeError ->
  load_data file w =
    (Return tt,
     mkWorld (stock_data w)
       (log w ++
        [mkRecord ERROR "load_data: failed to decode JSON from %s"
           [AVal (PStr file)] (Some JSONDecodeError)])
       (files w)).
Proof.
  intros H E. unfold load_data, read_text, json_load. run_monad.
  rewrite H, E. reflexivity.
Qed.

Lemma load_data_not_object file text v w :
  files w file = File text ->
  Json.loads text = Json.Decoded v ->
  isinstance_dict v = false ->
  load_data file w =
    (Return tt,
     mkWorld (stock_data w)
       (log w ++
        [mkRecord ERROR "load_data: expected a JSON object/dict in %s"
           [AVal (PStr file)] None])
       (files w)).
Proof.
  intros H E D. unfold load_data, read_text, json_load. run_monad.
  rewrite H, E. destruct v; try discriminate; reflexivity.
Qed.

(** A decoded object replaces the inventory. *)
Lemma load_data_object file text d w :
  files w file = File text ->
  Json.loads text = Json.Decoded (PDict d) ->
  load_data file w =
    (Return tt, mkWorld (Dict.update d []) (log w) (files w)).
Proof.
  intros H E. unfold load_data, read_text, json_load. run_monad.
  rewrite H, E. reflexivity.
Qed.



(** ** JSON text read back *)































Lemma deep_wf_list l : deep_wf (PList l) <-> Forall deep_wf l.
Proof.
  induction l as [|x l IH].
  - split; constructor.
  - change (deep_wf (PList (x :: l))) with (deep_wf x /\ deep_wf (PList l)).
    rewrite IH. split.
    + intros [H1 H2]. now constructor.
    + intros H. inversion H. auto.
Qed.

Lemma deep_wf_dict d :
  deep_wf (PDict d) <->
  Dict.wf d /\ Forall (fun kv => deep_wf (snd kv)) d.
Proof.
  cbn [deep_wf]. unfold Dict.wf, Dict.keys.
  split; intros [H1 H2]; (split; [exact H1|]); clear H1.
  - induction d as [|[k x] d IH]; constructor.
    + exact (proj1 H2).
    + exact (IH (proj2 H2)).
  - induction d as [|[k x] d IH]; [exact I|].
    inversion H2; subst. split; [assumption|]. now apply IH.
Qed.









(** Every entry is written by [add_item] or [remove_item], or read from
    well-formed text: quantities that are integers need no deeper check. *)
Lemma int_valued_deep_wf d :
  Dict.wf d -> int_valued d = true -> deep_wf (PDict d).
Proof.
  intros Hwf Hint. apply deep_wf_dict. split; [exact Hwf|].
  unfold int_valued in Hint. rewrite forallb_forall in Hint.
  apply Forall_forall. intros kv Hin. specialize (Hint kv Hin).
  destruct (snd kv); try discriminate; exact I.
Qed.

(** ** The decoder does not depend on its fuel *)

Lemma scan_value_eq f s :
  Json.scan_value (S f) s =
    match s with
    | String c s1 =>
        if Ascii.eqb c "{" then
          match Json.skip_ws s1 with
          | String c2 s2 =>
              if Ascii.eqb c2 "}" then Json.Parsed (PDict []) s2
              else if Ascii.eqb c2 Json.dquote then Json.scan_members f [] s2
              else Json.Malformed
          | EmptyString => Json.Malformed
          end
        else if Ascii.eqb c "[" then
          match Json.skip_ws s1 with
          | String c2 s2 =>
              if Ascii.eqb c2 "]" then Json.Parsed (PList []) s2
              else Json.scan_elements f [] (String c2 s2)
          | EmptyString => Json.scan_elements f [] ""
          end
        else if Ascii.eqb c Json.dquote then
          match Json.scanstring s1 with
          | Json.Parsed t rest => Json.Parsed (PStr t) rest
          | Json.Malformed => Json.Malformed
          | Json.Unsupported => Json.Unsupported
          end
        else Json.scan_atom s
    | EmptyString => Json.scan_atom s
    end.
Proof.
  destruct s as [|c s1]; [reflexivity|].
  destruct c as [[] [] [] [] [] [] [] []]; try reflexivity;
    cbn [Json.scan_value Ascii.eqb Bool.eqb];
    (destruct (Json.skip_ws s1) as [|c2 s2]; [reflexivity|]);
    destruct c2 as [[] [] [] [] [] [] [] []]; reflexivity.
Qed.

Lemma scan_members_eq f acc s :
  Json.scan_members (S f) acc s =
    match Json.scanstring s with
    | Json.Parsed key s1 =>
        match Json.skip_ws s1 with
        | String c2 s2 =>
            if Ascii.eqb c2 ":" then
              match Json.scan_value f (Json.skip_ws s2) with
              | Json.Parsed v s3 =>
                  match Json.skip_ws s3 with
                  | String c4 s4 =>
                      if Ascii.eqb c4 "}"
                      then Json.Parsed (PDict (Dict.set key v acc)) s4
                      else if Ascii.eqb c4 "," then
                        match Json.skip_ws s4 with
                        | String c5 s5 =>
                            if Ascii.eqb c5 Json.dquote
                            then Json.scan_members f (Dict.set key v acc) s5
                            else Json.Malformed
                        | EmptyString => Json.Malformed
                        end
                      else Json.Malformed
                  | EmptyString => Json.Malformed
                  end
              | Json.Malformed => Json.Malformed
              | Json.Unsupported => Json.Unsupported
              end
            else Json.Malformed
        | EmptyString => Json.Malformed
        end
    | Json.Malformed => Json.Malformed
    | Json.Unsupported => Json.Unsupported
    end.
Proof.
  cbn [Json.scan_members].
  destruct (Json.scanstring s) as [key s1| |]; try reflexivity.
  destruct (Json.skip_ws s1) as [|c2 s2]; [reflexivity|].
  destruct c2 as [[] [] [] [] [] [] [] []]; try reflexivity.
  cbn [Ascii.eqb Bool.eqb].
  destruct (Json.scan_value f (Json.skip_ws s2)) as [v s3| |];
    try reflexivity.
  destruct (Json.skip_ws s3) as [|c4 s4]; [reflexivity|].
  destruct c4 as [[] [] [] [] [] [] [] []]; try reflexivity.
  cbn [Ascii.eqb Bool.eqb].
  destruct (Json.skip_ws s4) as [|c5 s5]; [reflexivity|].
  destruct c5 as [[] [] [] [] [] [] [] []]; reflexivity.
Qed.

Lemma scan_elements_eq f acc s :
  Json.scan_elements (S f) acc s =
    match Json.scan_value f s with
    | Json.Parsed v s1 =>
        match Json.skip_ws s1 with
        | String c2 s2 =>
            if Ascii.eqb c2 "]" then Json.Parsed (PList (acc ++ [v])) s2
            else if Ascii.eqb c2 ","
            then Json.scan_elements f (acc ++ [v]) (Json.skip_ws s2)
            else Json.Malformed
        | EmptyString => Json.Malformed
        end
    | Json.Malformed => Json.Malformed
    | Json.Unsupported => Json.Unsupported
    end.
Proof.
  cbn [Json.scan_elements].
  destruct (Json.scan_value f s) as [v s1| |]; try reflexivity.
  destruct (Json.skip_ws s1) as [|c2 s2]; [reflexivity|].
  destruct c2 as [[] [] [] [] [] [] [] []]; reflexivity.
Qed.

Lemma skip_ws_length s :
  (String.length (Json.skip_ws s) <= String.length s)%nat.
Proof.
  induction s as [|c s IH]; simpl; [lia|].
  destruct (Json.is_ws c); simpl; lia.
Qed.

Lemma scanstring_length s : forall t rest,
  Json.scanstring s = Json.Parsed t rest ->
  (String.length rest < String.length s)%nat.
Proof.
  induction s as [s IH] using
    (well_founded_induction
       (Wf_nat.well_founded_ltof _ String.length)).
  unfold Wf_nat.ltof in IH.
  intros t rest H. destruct s as [|c s1]; [discriminate|].
  cbn [Json.scanstring] in H.
  assert (Hp : forall ch s' t' r',
             (String.length s' < String.length (String c s1))%nat ->
             Json.prepend ch (Json.scanstring s') = Json.Parsed t' r' ->
             (String.length r' < String.length (String c s1))%nat).
  { intros ch s' t' r' Hl Hr.
    destruct (Json.scanstring s') as [t0 r0| |] eqn:E; try discriminate.
    simpl in Hr. injection Hr as _ <-.
    specialize (IH s' Hl t0 r0 E). lia. }
  destruct (Ascii.eqb c Json.dquote).
  { injection H as _ <-. simpl. lia. }
  destruct (Ascii.eqb c "\").
  - destruct s1 as [|e s2]; [discriminate|].
    destruct (Ascii.eqb e "u").
    + destruct s2 as [|h1 [|h2 [|h3 [|h4 s3]]]]; try discriminate.
      destruct (Json.hex4 h1 h2 h3 h4) as [n|]; [|discriminate].
      destruct (n <? 128)%N; [|discriminate].
      apply Hp in H; [exact H | simpl; lia].
    + destruct (Json.unescape e); [|discriminate].
      apply Hp in H; [exact H | simpl; lia].
  - destruct (N_of_ascii c <? 32)%N; [discriminate|].
    apply Hp in H; [exact H | simpl; lia].
Qed.

Lemma scan_digits_length s :
  (String.length (snd (Json.scan_digits s)) <= String.length s)%nat.
Proof.
  induction s as [|c s IH]; simpl; [lia|].
  destruct (Json.is_digit c); [|simpl; lia].
  destruct (Json.scan_digits s) as [u rest]. simpl in *. lia.
Qed.

Lemma scan_natural_eq c s1 :
  Json.scan_natural (String c s1) =
    if Ascii.eqb c "0" then Some (0, s1)
    else if Json.is_digit c then
      let (u, rest) := Json.scan_digits (String c s1) in
      Some (Z.of_uint u, rest)
    else None.
Proof. destruct c as [[] [] [] [] [] [] [] []]; reflexivity. Qed.

Lemma scan_natural_length s n rest :
  Json.scan_natural s = Some (n, rest) ->
  (String.length rest < String.length s)%nat.
Proof.
  destruct s as [|c s1]; [discriminate|].
  rewrite scan_natural_eq.
  destruct (Ascii.eqb c "0"); [intros [= _ <-]; simpl; lia|].
  destruct (Json.is_digit c) eqn:Hc; [|discriminate].
  cbn [Json.scan_digits]. rewrite Hc.
  pose proof (scan_digits_length s1) as Hl.
  destruct (Json.scan_digits s1) as [u r]. intros [= _ <-]. simpl in *. lia.
Qed.

Lemma scan_number_eq c s1 :
  Json.scan_number (String c s1) =
    if Ascii.eqb c "-" then Json.finish_number true s1
    else Json.finish_number false (String c s1).
Proof. destruct c as [[] [] [] [] [] [] [] []]; reflexivity. Qed.

Lemma finish_number_length neg body v rest :
  Json.finish_number neg body = Json.Parsed v rest ->
  (String.length rest < String.length body)%nat.
Proof.
  unfold Json.finish_number.
  destruct (Json.scan_natural body) as [[n r]|] eqn:E; [|discriminate].
  apply scan_natural_length in E.
  destruct (Json.float_follows r); [discriminate|].
  intros [= _ <-]. exact E.
Qed.

Lemma scan_number_length s v rest :
  Json.scan_number s = Json.Parsed v rest ->
  (String.length rest < String.length s)%nat.
Proof.
  destruct s as [|c s1]; [discriminate|].
  rewrite scan_number_eq.
  destruct (Ascii.eqb c "-"); intros H; apply finish_number_length in H;
    simpl in *; lia.
Qed.

Lemma strip_prefix_length p : forall s rest,
  Json.strip_prefix p s = Some rest ->
  String.length s = (String.length p + String.length rest)%nat.
Proof.
  induction p as [|a p IH]; intros s rest; simpl.
  - now intros [= ->].
  - destruct s as [|b s]; [discriminate|].
    destruct (Ascii.eqb a b); [|discriminate].
    intros H. apply IH in H. simpl. lia.
Qed.

Lemma scan_atom_length s v rest :
  Json.scan_atom s = Json.Parsed v rest ->
  (String.length rest < String.length s)%nat.
Proof.
  unfold Json.scan_atom.
  destruct (Json.strip_prefix "null" s) eqn:E1.
  { intros [= _ <-]. apply strip_prefix_length in E1. simpl in E1. lia. }
  destruct (Json.strip_prefix "true" s) eqn:E2.
  { intros [= _ <-]. apply strip_prefix_length in E2. simpl in E2. lia. }
  destruct (Json.strip_prefix "false" s) eqn:E3.
  { intros [= _ <-]. apply strip_prefix_length in E3. simpl in E3. lia. }
  destruct (Json.scan_number s) as [v0 r0| |] eqn:E4.
  - intros [= _ <-]. now apply scan_number_length in E4.
  - destruct (Json.strip_prefix "NaN" s), (Json.strip_prefix "Infinity" s),
      (Json.strip_prefix "-Infinity" s); discriminate.
  - discriminate.
Qed.

(** Whatever the scanner reads, it reads at least one character. *)
Lemma scan_consumes f :
  (forall s v rest,
     Json.scan_value f s = Json.Parsed v rest ->
     (String.length rest < String.length s)%nat) /\
  (forall acc s v rest,
     Json.scan_members f acc s = Json.Parsed v rest ->
     (String.length rest < String.length s)%nat) /\
  (forall acc s v rest,
     Json.scan_elements f acc s = Json.Parsed v rest ->
     (String.length rest < String.length s)%nat).
Proof.
  induction f as [|f [IHv [IHm IHe]]].
  - repeat split; intros; discriminate.
  - split; [|split].
    + intros s v rest. rewrite scan_value_eq.
      destruct s as [|c s1]; [apply scan_atom_length|].
      destruct (Ascii.eqb c "{").
      { pose proof (skip_ws_length s1) as Hw.
        destruct (Json.skip_ws s1) as [|c2 s2]; [discriminate|].
        destruct (Ascii.eqb c2 "}").
        { intros [= _ <-]. simpl in *. lia. }
        destruct (Ascii.eqb c2 Json.dquote); [|discriminate].
        intros H. apply IHm in H. simpl in *. lia. }
      destruct (Ascii.eqb c "[").
      { pose proof (skip_ws_length s1) as Hw.
        destruct (Json.skip_ws s1) as [|c2 s2].
        - intros H. apply IHe in H. simpl in *. lia.
        - destruct (Ascii.eqb c2 "]").
          + intros [= _ <-]. simpl in *. lia.
          + intros H. apply IHe in H. simpl in *. lia. }
      destruct (Ascii.eqb c Json.dquote).
      { destruct (Json.scanstring s1) as [t r| |] eqn:E; try discriminate.
        intros [= _ <-]. apply scanstring_length in E. simpl. lia. }
      apply scan_atom_length.
    + intros acc s v rest. rewrite scan_members_eq.
      destruct (Json.scanstring s) as [key s1| |] eqn:E; try discriminate.
      apply scanstring_length in E.
      pose proof (skip_ws_length s1) as Hw1.
      destruct (Json.skip_ws s1) as [|c2 s2]; [discriminate|].
      destruct (Ascii.eqb c2 ":"); [|discriminate].
      pose proof (skip_ws_length s2) as Hw2.
      destruct (Json.scan_value f (Json.skip_ws s2)) as [x s3| |] eqn:Ev;
        try discriminate.
      apply IHv in Ev.
      pose proof (skip_ws_length s3) as Hw3.
      destruct (Json.skip_ws s3) as [|c4 s4]; [discriminate|].
      destruct (Ascii.eqb c4 "}").
      { intros [= _ <-]. simpl in *. lia. }
      destruct (Ascii.eqb c4 ","); [|discriminate].
      pose proof (skip_ws_length s4) as Hw4.
      destruct (Json.skip_ws s4) as [|c5 s5]; [discriminate|].
      destruct (Ascii.eqb c5 Json.dquote); [|discriminate].
      intros H. apply IHm in H. simpl in *. lia.
    + intros acc s v rest. rewrite scan_elements_eq.
      destruct (Json.scan_value f s) as [x s1| |] eqn:Ev; try discriminate.
      apply IHv in Ev.
      pose proof (skip_ws_length s1) as Hw1.
      destruct (Json.skip_ws s1) as [|c2 s2]; [discriminate|].
      destruct (Ascii.eqb c2 "]").
      { intros [= _ <-]. simpl in *. lia. }
      destruct (Ascii.eqb c2 ","); [|discriminate].
      pose proof (skip_ws_length s2) as Hw2.
      intros H. apply IHe in H. simpl in *. lia.
Qed.

(** Beyond two calls for each character, more fuel changes nothing. *)
Lemma scan_fuel f :
  (forall s f',
     (2 * String.length s < f)%nat -> (f <= f')%nat ->
     Json.scan_value f' s = Json.scan_value f s) /\
  (forall acc s f',
     (2 * String.length s < f)%nat -> (f <= f')%nat ->
     Json.scan_members f' acc s = Json.scan_members f acc s) /\
  (forall acc s f',
     (2 * String.length s + 1 < f)%nat -> (f <= f')%nat ->
     Json.scan_elements f' acc s = Json.scan_elements f acc s).
Proof.
  induction f as [|f [IHv [IHm IHe]]].
  - repeat split; intros; lia.
  - split; [|split].
    + intros s [|f'] Hs Hf; [lia|]. rewrite !scan_value_eq.
      destruct s as [|c s1]; [reflexivity|].
      destruct (Ascii.eqb c "{").
      { pose proof (skip_ws_length s1) as Hw.
        destruct (Json.skip_ws s1) as [|c2 s2]; [reflexivity|].
        destruct (Ascii.eqb c2 "}"); [reflexivity|].
        destruct (Ascii.eqb c2 Json.dquote); [|reflexivity].
        apply IHm; simpl in *; lia. }
      destruct (Ascii.eqb c "[").
      { pose proof (skip_ws_length s1) as Hw.
        destruct (Json.skip_ws s1) as [|c2 s2].
        - apply IHe; simpl in *; lia.
        - destruct (Ascii.eqb c2 "]"); [reflexivity|].
          apply IHe; simpl in *; lia. }
      reflexivity.
    + intros acc s [|f'] Hs Hf; [lia|]. rewrite !scan_members_eq.
      destruct (Json.scanstring s) as [key s1| |] eqn:E; try reflexivity.
      apply scanstring_length in E.
      pose proof (skip_ws_length s1) as Hw1.
      destruct (Json.skip_ws s1) as [|c2 s2]; [reflexivity|].
      destruct (Ascii.eqb c2 ":"); [|reflexivity].
      pose proof (skip_ws_length s2) as Hw2.
      rewrite (IHv (Json.skip_ws s2) f') by (simpl in *; lia).
      destruct (Json.scan_value f (Json.skip_ws s2)) as [x s3| |] eqn:Ev;
        try reflexivity.
      apply (proj1 (scan_consumes f)) in Ev.
      pose proof (skip_ws_length s3) as Hw3.
      destruct (Json.skip_ws s3) as [|c4 s4]; [reflexivity|].
      destruct (Ascii.eqb c4 "}"); [reflexivity|].
      destruct (Ascii.eqb c4 ","); [|reflexivity].
      pose proof (skip_ws_length s4) as Hw4.
      destruct (Json.skip_ws s4) as [|c5 s5]; [reflexivity|].
      destruct (Ascii.eqb c5 Json.dquote); [|reflexivity].
      apply IHm; simpl in *; lia.
    + intros acc s [|f'] Hs Hf; [lia|]. rewrite !scan_elements_eq.
      rewrite (IHv s f') by lia.
      destruct (Json.scan_value f s) as [x s1| |] eqn:Ev; try reflexivity.
      apply (proj1 (scan_consumes f)) in Ev.
      pose proof (skip_ws_length s1) as Hw1.
      destruct (Json.skip_ws s1) as [|c2 s2]; [reflexivity|].
      destruct (Ascii.eqb c2 "]"); [reflexivity|].
      destruct (Ascii.eqb c2 ","); [|reflexivity].
      pose proof (skip_ws_length s2) as Hw2.
      apply IHe; simpl in *; lia.
Qed.

(** [Json.loads] reads the same with any larger fuel: no text exhausts
    the fuel it is given. *)
Lemma loads_fuel s f :
  (Json.fuel_for s <= f)%nat ->
  Json.scan_value f (Json.skip_ws s) =
    Json.scan_value (Json.fuel_for s) (Json.skip_ws s).
Proof.
  intros H. apply (proj1 (scan_fuel (Json.fuel_for s))); [|exact H].
  pose proof (skip_ws_length s). unfold Json.fuel_for. lia.
Qed.


(** ** Saving, and loading what was saved *)

(** *** Surrogates in the text of a value *)
















(** *** What [save_data] does *)




Lemma save_data_locked file w :
  String.eqb file "" = false ->
  files w file = Locked ->
  save_data file w =
    (Return tt,
     mkWorld (stock_data w)
       (log w ++
        [mkRecord ERROR "save_data: failed to write to %s" [AVal (PStr file)]
           (Some PermissionError)])
       (files w)).
Proof.
  intros N H. unfold save_data, write_text. run_monad. rewrite N, H.
  reflexivity.
Qed.

(** *** The round trip *)





(** * Further properties *)

(** ** Reporting *)

(** X1: on a dictionary with distinct keys, [print_data] returns, leaves
    inventory and files as they are, and hands [logging] the heading
    followed by one line per entry, in dictionary order, each with the
    name and the quantity stored under it. *)
Theorem X1_print_data_lists_every_entry :
  forall w : world,
    Dict.wf (stock_data w) ->
    print_data w =
      (Return tt,
       mkWorld (stock_data w) (log w ++ report (stock_data w)) (files w)).
Proof. intros w H. now apply print_data_report. Qed.

Lemma X1_print_data_lists_every_entry_witness :
  print_data (mkWorld [("pear", PInt 4); ("plum", PInt 0)] [] no_files) =
    (Return tt,
     mkWorld [("pear", PInt 4); ("plum", PInt 0)]
       [mkRecord INFO "Items Report" [] None;
        mkRecord INFO "%s -> %s" [AVal (PStr "pear"); AVal (PInt 4)] None;
        mkRecord INFO "%s -> %s" [AVal (PStr "plum"); AVal (PInt 0)] None]
       no_files).
Proof.
  apply (X1_print_data_lists_every_entry
           (mkWorld [("pear", PInt 4); ("plum", PInt 0)] [] no_files)).
  unfold Dict.wf. simpl. repeat constructor; simpl; intuition discriminate.
Defined.

(** ** Saving *)



(** ** One item at a time *)

Lemma get_del_other k k' d :
  k <> k' -> Dict.get k' (Dict.del k d) = Dict.get k' d.
Proof.
  intros N. induction d as [|[k0 v0] d IH]; simpl; [reflexivity|].
  destruct (String.eqb k k0) eqn:E; simpl.
  - apply String.eqb_eq in E. subst k0.
    destruct (String.eqb k' k) eqn:E'; auto.
    apply String.eqb_eq in E'. congruence.
  - now rewrite IH.
Qed.

Lemma add_item_frame item qty logs now w other :
  item <> PStr other ->
  Dict.get other (stock_data (snd (add_item item qty logs now w))) =
    Dict.get other (stock_data w).
Proof.
  intros N. unfold add_item.
  destruct item as [| | |name| |]; try reflexivity.
  destruct (int_value qty) as [q|]; [|reflexivity].
  destruct (q <? 0); [reflexivity|].
  destruct (str_truthy name); [|reflexivity]. cbn [negb].
  run_monad.
  destruct (py_add (Dict.get_default name (PInt 0) (stock_data w)) qty)
    as [v| |]; try reflexivity.
  cbn [snd stock_data]. apply get_set_other. congruence.
Qed.

Lemma remove_item_frame item qty w other :
  item <> PStr other ->
  Dict.get other (stock_data (snd (remove_item item qty w))) =
    Dict.get other (stock_data w).
Proof.
  intros N. unfold remove_item.
  destruct item as [| | |name| |]; try reflexivity.
  destruct (int_value qty) as [q|]; [|reflexivity].
  destruct (q <=? 0); [reflexivity|].
  assert (Hn : name <> other) by congruence.
  run_monad.
  destruct (Dict.get name (stock_data w)) as [v|]; [|reflexivity].
  destruct (py_sub v qty) as [v'|e|] eqn:Es;
    [|destruct (exn_eqb KeyError e); reflexivity|reflexivity].
  cbn [stock_data log files]. rewrite get_set_same.
  destruct (py_le v' (PInt 0)) as [[]|e|]; cbn [stock_data log files snd];
    try (now apply get_set_other).
  - rewrite get_set_same. cbn [snd stock_data].
    rewrite del_set. now apply get_del_other.
  - destruct (exn_eqb KeyError e); cbn [snd stock_data];
      now apply get_set_other.
Qed.

(** X6: a call of [add_item] or [remove_item] for one item, whatever its
    arguments and whether it returns or raises, leaves every entry under
    another name as it was, so [get_qty] of that name answers as before. *)
Theorem X6_other_items_untouched :
  forall (item qty : pyval) (logs : option (list pyval)) (now : string)
         (w : world) (other : string),
    item <> PStr other ->
    let after_add := snd (add_item item qty logs now w) in
    let after_remove := snd (remove_item item qty w) in
    Dict.get other (stock_data after_add) = Dict.get other (stock_data w) /\
    fst (get_qty (PStr other) after_add) = fst (get_qty (PStr other) w) /\
    Dict.get other (stock_data after_remove) = Dict.get other (stock_data w) /\
    fst (get_qty (PStr other) after_remove) = fst (get_qty (PStr other) w).
Proof.
  intros item qty logs now w other N. cbv zeta.
  pose proof (add_item_frame item qty logs now w other N) as Ha.
  pose proof (remove_item_frame item qty w other N) as Hr.
  rewrite !get_qty_str. cbn [fst]. unfold Dict.get_default.
  rewrite Ha, Hr. auto.
Qed.

Lemma X6_other_items_untouched_witness :
  let w := mkWorld [("pear", PInt 4); ("plum", PStr "many")] [] no_files in
  Dict.get "pear"
    (stock_data (snd (add_item (PStr "plum") (PInt 1) None "t0" w))) =
    Some (PInt 4) /\
  Dict.get "pear"
    (stock_data (snd (remove_item (PStr "plum") (PInt 1) w))) =
    Some (PInt 4).
Proof.
  intros w.
  destruct (X6_other_items_untouched (PStr "plum") (PInt 1) None "t0" w
              "pear" ltac:(discriminate)) as [A [_ [R _]]].
  split; [exact A | exact R].
Defined.

Lemma set_set k v v' d : Dict.set k v (Dict.set k v' d) = Dict.set k v d.
Proof.
  induction d as [|[k0 v0] d IH]; simpl.
  - now rewrite String.eqb_refl.
  - destruct (String.eqb k k0) eqn:E; simpl; rewrite E; congruence.
Qed.

Lemma set_same k v d : Dict.get k d = Some v -> Dict.set k v d = d.
Proof.
  induction d as [|[k0 v0] d IH]; simpl; [discriminate|].
  destruct (String.eqb k k0).
  - now intros [= ->].
  - intros H. now rewrite IH.
Qed.

Lemma del_absent k d : Dict.get k d = None -> Dict.del k d = d.
Proof.
  induction d as [|[k0 v0] d IH]; simpl; [reflexivity|].
  destruct (String.eqb k k0); [discriminate|].
  intros H. now rewrite IH.
Qed.

(** X7: adding a quantity above zero of a named item and then removing
    the same quantity puts the world back exactly as it was, when the item
    was absent or held a quantity above zero. *)
Theorem X7_add_then_remove_restores :
  forall (w : world) (name : string) (q : Z) (logs : option (list pyval))
         (now : string),
    name <> "" -> 0 < q ->
    (Dict.get name (stock_data w) = None \/
     exists z, Dict.get name (stock_data w) = Some (PInt z) /\ 0 < z) ->
    (add_item (PStr name) (PInt q) logs now ;;
     remove_item (PStr name) (PInt q)) w = (Return tt, w).
Proof.
  intros w name q logs now Hn Hq H. unfold bind.
  destruct H as [G | [z [G Hz]]].
  - rewrite (add_item_accepted name (PInt q) q (PInt 0) 0 logs now w
               Hn eq_refl ltac:(lia)); [| |reflexivity].
    2:{ unfold Dict.get_default. now rewrite G. }
    rewrite (remove_item_found name (PInt q) q (PInt (0 + q)) (0 + q) _
               eq_refl Hq); [| |reflexivity].
    2:{ cbn [stock_data]. apply get_set_same. }
    cbn [stock_data log files].
    replace (0 + q - q <=? 0) with true by (symmetry; apply Z.leb_le; lia).
    rewrite del_set, (del_absent name _ G). now destruct w.
  - rewrite (add_item_accepted name (PInt q) q (PInt z) z logs now w
               Hn eq_refl ltac:(lia)); [| |reflexivity].
    2:{ unfold Dict.get_default. now rewrite G. }
    rewrite (remove_item_found name (PInt q) q (PInt (z + q)) (z + q) _
               eq_refl Hq); [| |reflexivity].
    2:{ cbn [stock_data]. apply get_set_same. }
    cbn [stock_data log files].
    replace (z + q - q <=? 0) with false by (symmetry; apply Z.leb_gt; lia).
    replace (z + q - q) with z by lia.
    rewrite set_set, (set_same name _ _ G). now destruct w.
Qed.

Lemma X7_add_then_remove_restores_witness :
  let w := mkWorld [("pear", PInt 4); ("plum", PInt 1)] [] no_files in
  (add_item (PStr "pear") (PInt 9) None "t0" ;;
   remove_item (PStr "pear") (PInt 9)) w = (Return tt, w).
Proof.
  intros w.
  apply (X7_add_then_remove_restores w "pear" 9 None "t0").
  - discriminate.
  - lia.
  - right. exists 4. split; [reflexivity | lia].
Defined.

(** An entry with quantity 0 does not come back: the removal drops it. *)
Example add_then_remove_drops_zero_entry :
  stock_data
    (snd ((add_item (PStr "pear") (PInt 9) None "t0" ;;
           remove_item (PStr "pear") (PInt 9))
            (mkWorld [("pear", PInt 0)] [] no_files))) = [].
Proof. reflexivity. Qed.

(** X8: the place of an entry.  An accepted [add_item] for a name the
    inventory holds keeps the keys and their order; for a new name it
    puts the name last.  A [remove_item] of less than the stored quantity
    keeps the keys and their order and stores the difference. *)
Theorem X8_entries_keep_their_place :
  (forall (w : world) (name : string) (qty : pyval) (q z : Z)
          (logs : option (list pyval)) (now : string),
     name <> "" -> int_value qty = Some q -> 0 <= q ->
     quantity name w = PInt z ->
     exists l w',
       add_item (PStr name) qty logs now w = (Return l, w') /\
       quantity name w' = PInt (z + q) /\
       Dict.keys (stock_data w') =
         match Dict.get name (stock_data w) with
         | Some _ => Dict.keys (stock_data w)
         | None => (Dict.keys (stock_data w) ++ [name])%list
         end) /\
  (forall (w : world) (name : string) (qty : pyval) (q z : Z),
     int_value qty = Some q -> 0 < q ->
     Dict.get name (stock_data w) = Some (PInt z) -> q < z ->
     exists w',
       remove_item (PStr name) qty w = (Return tt, w') /\
       Dict.get name (stock_data w') = Some (PInt (z - q)) /\
       Dict.keys (stock_data w') = Dict.keys (stock_data w)).
Proof.
  split.
  - intros w name qty q z logs now Hn Hq Hpos Hs.
    rewrite (add_item_accepted name qty q (PInt z) z logs now w
               Hn Hq Hpos Hs eq_refl).
    do 2 eexists. split; [reflexivity|]. unfold quantity. cbn [stock_data].
    split.
    + unfold Dict.get_default. now rewrite get_set_same.
    + destruct (Dict.get name (stock_data w)) eqn:G.
      * apply keys_set_present. congruence.
      * rewrite (keys_set_absent name _ _ G). unfold Dict.keys.
        now rewrite map_app.
  - intros w name qty q z Hq Hpos G Hlt.
    rewrite (remove_item_found name qty q (PInt z) z w Hq Hpos G eq_refl).
    replace (z - q <=? 0) with false by (symmetry; apply Z.leb_gt; lia).
    eexists. split; [reflexivity|]. cbn [stock_data].
    split; [apply get_set_same|].
    apply keys_set_present. congruence.
Qed.

Lemma X8_entries_keep_their_place_witness :
  let w := mkWorld [("pear", PInt 4); ("plum", PInt 1)] [] no_files in
  (exists l w',
     add_item (PStr "fig") (PInt 2) None "t0" w = (Return l, w') /\
     Dict.keys (stock_data w') = ["pear"; "plum"; "fig"]) /\
  (exists w',
     remove_item (PStr "pear") (PInt 3) w = (Return tt, w') /\
     Dict.keys (stock_data w') = ["pear"; "plum"]).
Proof.
  intros w. split.
  - destruct (proj1 X8_entries_keep_their_place w "fig" (PInt 2) 2 0 None "t0"
                ltac:(discriminate) eq_refl ltac:(lia) eq_refl)
      as [l [w' [E [_ K]]]].
    exists l, w'. split; [exact E | exact K].
  - destruct (proj2 X8_entries_keep_their_place w "pear" (PInt 3) 3 4
                eq_refl ltac:(lia) eq_refl ltac:(lia))
      as [w' [E [_ K]]].
    exists w'. split; [exact E | exact K].
Defined.

(** ** Values that are no quantities *)

Lemma py_add_no_number stored qty q :
  no_number stored = true -> int_value qty = Some q ->
  py_add stored qty = Raise TypeError.
Proof. destruct stored, qty; simpl; intros; try discriminate; reflexivity. Qed.

Lemma py_sub_no_number stored qty q :
  no_number stored = true -> int_value qty = Some q ->
  py_sub stored qty = Raise TypeError.
Proof. destruct stored, qty; simpl; intros; try discriminate; reflexivity. Qed.

(** X9: when the value stored under a name is [None], a string, a list
    or a dictionary (a loaded file can bring one), a valid [add_item] or
    [remove_item] for that name raises [TypeError], which neither
    function handles, and the world stays as it was. *)
Theorem X9_entry_without_arithmetic_raises :
  forall (w : world) (name : string) (stored qty : pyval) (q : Z)
         (logs : option (list pyval)) (now : string),
    Dict.get name (stock_data w) = Some stored ->
    no_number stored = true ->
    int_value qty = Some q ->
    (name <> "" -> 0 <= q ->
     add_item (PStr name) qty logs now w = (Raise TypeError, w)) /\
    (0 < q -> remove_item (PStr name) qty w = (Raise TypeError, w)).
Proof.
  intros w name stored qty q logs now G Hs Hq. split.
  - intros Hn Hpos. unfold add_item. rewrite Hq.
    destruct (q <? 0) eqn:E; [apply Z.ltb_lt in E; lia|].
    destruct name as [|c name]; [congruence|]. cbn [str_truthy negb].
    run_monad. unfold Dict.get_default. rewrite G.
    now rewrite (py_add_no_number stored qty q Hs Hq).
  - intros Hpos. unfold remove_item. rewrite Hq.
    destruct (q <=? 0) eqn:E; [apply Z.leb_le in E; lia|].
    run_monad. rewrite G. now rewrite (py_sub_no_number stored qty q Hs Hq).
Qed.

Lemma X9_entry_without_arithmetic_raises_witness :
  let w := mkWorld [("plum", PStr "many")] [] no_files in
  add_item (PStr "plum") (PInt 1) None "t0" w = (Raise TypeError, w) /\
  remove_item (PStr "plum") (PInt 1) w = (Raise TypeError, w).
Proof.
  intros w.
  destruct (X9_entry_without_arithmetic_raises w "plum" (PStr "many")
              (PInt 1) 1 None "t0" eq_refl eq_refl eq_refl) as [A R].
  split; [apply A; [discriminate | lia] | apply R; lia].
Defined.

(** ** Loading *)

Lemma scan_atom_wf s v rest :
  Json.scan_atom s = Json.Parsed v rest -> deep_wf v.
Proof.
  unfold Json.scan_atom.
  destruct (Json.strip_prefix "null" s); [intros [= <- _]; exact I|].
  destruct (Json.strip_prefix "true" s); [intros [= <- _]; exact I|].
  destruct (Json.strip_prefix "false" s); [intros [= <- _]; exact I|].
  destruct (Json.scan_number s) as [v0 r0| |] eqn:E.
  - intros [= <- _]. destruct s as [|c s1]; [discriminate|].
    rewrite scan_number_eq in E.
    assert (H : forall neg body,
              Json.finish_number neg body = Json.Parsed v0 r0 -> deep_wf v0).
    { intros neg body. unfold Json.finish_number.
      destruct (Json.scan_natural body) as [[n r]|]; [|discriminate].
      destruct (Json.float_follows r); [discriminate|].
      intros [= <- _]. exact I. }
    destruct (Ascii.eqb c "-"); eapply H; eassumption.
  - destruct (Json.strip_prefix "NaN" s), (Json.strip_prefix "Infinity" s),
      (Json.strip_prefix "-Infinity" s); discriminate.
  - discriminate.
Qed.

Lemma deep_wf_set key x acc :
  deep_wf (PDict acc) -> deep_wf x -> deep_wf (PDict (Dict.set key x acc)).
Proof.
  rewrite !deep_wf_dict. intros [Hk Hv] Hx. split.
  - now apply wf_set.
  - now apply Forall_set.
Qed.

Lemma deep_wf_snoc x acc :
  deep_wf (PList acc) -> deep_wf x -> deep_wf (PList (acc ++ [x])).
Proof.
  rewrite !deep_wf_list. intros Ha Hx. apply Forall_app. auto.
Qed.

(** Whatever the scanner reads has distinct keys at every level. *)
Lemma scan_wf f :
  (forall s v rest, Json.scan_value f s = Json.Parsed v rest -> deep_wf v) /\
  (forall acc s v rest,
     deep_wf (PDict acc) ->
     Json.scan_members f acc s = Json.Parsed v rest -> deep_wf v) /\
  (forall acc s v rest,
     deep_wf (PList acc) ->
     Json.scan_elements f acc s = Json.Parsed v rest -> deep_wf v).
Proof.
  induction f as [|f [IHv [IHm IHe]]].
  - repeat split; intros; discriminate.
  - split; [|split].
    + intros s v rest. rewrite scan_value_eq.
      destruct s as [|c s1]; [apply scan_atom_wf|].
      destruct (Ascii.eqb c "{").
      { destruct (Json.skip_ws s1) as [|c2 s2]; [discriminate|].
        destruct (Ascii.eqb c2 "}").
        { intros [= <- _]. apply deep_wf_dict. split; constructor. }
        destruct (Ascii.eqb c2 Json.dquote); [|discriminate].
        apply IHm. apply deep_wf_dict. split; constructor. }
      destruct (Ascii.eqb c "[").
      { destruct (Json.skip_ws s1) as [|c2 s2].
        - apply IHe. exact I.
        - destruct (Ascii.eqb c2 "]"); [intros [= <- _]; exact I|].
          apply IHe. exact I. }
      destruct (Ascii.eqb c Json.dquote).
      { destruct (Json.scanstring s1); try discriminate.
        intros [= <- _]. exact I. }
      apply scan_atom_wf.
    + intros acc s v rest Hacc. rewrite scan_members_eq.
      destruct (Json.scanstring s) as [key s1| |]; try discriminate.
      destruct (Json.skip_ws s1) as [|c2 s2]; [discriminate|].
      destruct (Ascii.eqb c2 ":"); [|discriminate].
      destruct (Json.scan_value f (Json.skip_ws s2)) as [x s3| |] eqn:Ev;
        try discriminate.
      apply IHv in Ev.
      pose proof (deep_wf_set key x acc Hacc Ev) as Hset.
      destruct (Json.skip_ws s3) as [|c4 s4]; [discriminate|].
      destruct (Ascii.eqb c4 "}"); [intros [= <- _]; exact Hset|].
      destruct (Ascii.eqb c4 ","); [|discriminate].
      destruct (Json.skip_ws s4) as [|c5 s5]; [discriminate|].
      destruct (Ascii.eqb c5 Json.dquote); [|discriminate].
      now apply IHm.
    + intros acc s v rest Hacc. rewrite scan_elements_eq.
      destruct (Json.scan_value f s) as [x s1| |] eqn:Ev; try discriminate.
      apply IHv in Ev.
      pose proof (deep_wf_snoc x acc Hacc Ev) as Hsnoc.
      destruct (Json.skip_ws s1) as [|c2 s2]; [discriminate|].
      destruct (Ascii.eqb c2 "]"); [intros [= <- _]; exact Hsnoc|].
      destruct (Ascii.eqb c2 ","); [|discriminate].
      now apply IHe.
Qed.

Lemma loads_wf text v : Json.loads text = Json.Decoded v -> deep_wf v.
Proof.
  unfold Json.loads.
  destruct (Json.scan_value (Json.fuel_for text) (Json.skip_ws text))
    as [v0 rest| |] eqn:E; try discriminate.
  destruct (Json.skip_ws rest); [|discriminate].
  intros [= <-]. exact (proj1 (scan_wf _) _ _ _ E).
Qed.

Lemma load_object_replaces w file text d :
  files w file = File text ->
  Json.loads text = Json.Decoded (PDict d) ->
  load_data file w = (Return tt, mkWorld d (log w) (files w)) /\
  deep_wf (PDict d).
Proof.
  intros F E.
  pose proof (loads_wf text _ E) as Hwf. split; [|exact Hwf].
  rewrite (load_data_object file text d w F E).
  rewrite update_empty; [reflexivity|]. now apply deep_wf_dict in Hwf.
Qed.

(** X3: when the file holds a JSON object, [load_data] replaces the
    inventory by it: every entry held before is gone, nothing is merged,
    nothing is logged, and the loaded dictionary has distinct keys at
    every level whatever the text repeated. *)
Theorem X3_load_replaces_inventory :
  forall (w : world) (file text : string) (d : dict),
    files w file = File text ->
    Json.loads text = Json.Decoded (PDict d) ->
    load_data file w = (Return tt, mkWorld d (log w) (files w)) /\
    deep_wf (PDict d).
Proof.
  intros w file text d F E. exact (load_object_replaces w file text d F E).
Qed.

Lemma X3_load_replaces_inventory_witness :
  let q := String Json.dquote "" in
  let text := "{ " ++ q ++ "a" ++ q ++ ": 1, " ++ q ++ "b" ++ q ++ ": -3, "
              ++ q ++ "a" ++ q ++ ": [true] }" in
  let disk := fun p => if String.eqb p "in.json" then File text else Absent in
  load_data "in.json" (mkWorld [("pear", PInt 4); ("a", PInt 9)] [] disk) =
    (Return tt,
     mkWorld [("a", PList [PBool true]); ("b", PInt (-3))] [] disk).
Proof.
  intros q text disk.
  apply (X3_load_replaces_inventory
           (mkWorld [("pear", PInt 4); ("a", PInt 9)] [] disk) "in.json"
           text [("a", PList [PBool true]); ("b", PInt (-3))]).
  - reflexivity.
  - reflexivity.
Defined.

(** X4: on a file whose text holds nothing this development leaves out
    (no float, no [\u] escape of a code point beyond one byte),
    [load_data] never writes to the disk, and it changes the inventory
    only when the file holds a JSON object, which then becomes the
    inventory.  A file that cannot be opened makes it raise
    [PermissionError], which it does not handle, with the world as it
    was. *)
Theorem X4_load_changes_inventory_only_on_object :
  forall (w : world) (file : string),
    (forall text,
       files w file = File text -> Json.loads text <> Json.NotRepresented) ->
    let r := load_data file w in
    fst r <> Unmodelled /\
    files (snd r) = files w /\
    (stock_data (snd r) = stock_data w \/
     exists text d,
       files w file = File text /\
       Json.loads text = Json.Decoded (PDict d) /\
       r = (Return tt, mkWorld d (log w) (files w))) /\
    (files w file = Locked -> r = (Raise PermissionError, w)).
Proof.
  intros w file Hrep. cbv zeta.
  destruct (files w file) as [| | |text|] eqn:F.
  - rewrite (load_data_absent file w F). cbn [fst snd stock_data files].
    split; [discriminate|]. split; [reflexivity|].
    split; [now left | discriminate].
  - assert (E : load_data file w =
                  (Return tt,
                   mkWorld (stock_data w)
                     (log w ++
                      [mkRecord WARNING
                         ("load_data: file %s not found - " ++
                          "starting with empty inventory")
                         [AVal (PStr file)] None])
                     (files w))).
    { unfold load_data, read_text. run_monad. rewrite F. reflexivity. }
    rewrite E. cbn [fst snd stock_data files].
    split; [discriminate|]. split; [reflexivity|].
    split; [now left | discriminate].
  - assert (E : load_data file w = (Raise PermissionError, w)).
    { unfold load_data, read_text. run_monad. rewrite F. reflexivity. }
    rewrite E. cbn [fst snd].
    split; [discriminate|]. split; [reflexivity|].
    split; [now left | auto].
  - destruct (Json.loads text) as [v| |] eqn:E.
    + destruct (isinstance_dict v) eqn:D.
      * destruct v as [| | | | |d]; try discriminate.
        destruct (load_object_replaces w file text d F E) as [L _].
        rewrite L. cbn [fst snd stock_data files].
        split; [discriminate|]. split; [reflexivity|].
        split; [|discriminate].
        right. exists text, d. auto.
      * rewrite (load_data_not_object file text v w F E D).
        cbn [fst snd stock_data files].
        split; [discriminate|]. split; [reflexivity|].
        split; [now left | discriminate].
    + rewrite (load_data_malformed file text w F E).
      cbn [fst snd stock_data files].
      split; [discriminate|]. split; [reflexivity|].
      split; [now left | discriminate].
    + now destruct (Hrep text eq_refl).
  - assert (E : load_data file w =
                  (Return tt,
                   mkWorld (stock_data w)
                     (log w ++
                      [mkRecord ERROR
                         "load_data: failed to decode JSON from %s"
                         [AVal (PStr file)] (Some JSONDecodeError)])
                     (files w))).
    { unfold load_data, read_text. run_monad. rewrite F. reflexivity. }
    rewrite E. cbn [fst snd stock_data files].
    split; [discriminate|]. split; [reflexivity|].
    split; [now left | discriminate].
Qed.

Lemma X4_load_changes_inventory_only_on_object_witness :
  let disk := fun p => if String.eqb p "in.json" then Locked
                       else if String.eqb p "list.json" then File "[1]"
                       else Absent in
  let w := mkWorld [("pear", PInt 4)] [] disk in
  load_data "in.json" w = (Raise PermissionError, w) /\
  stock_data (snd (load_data "list.json" w)) = [("pear", PInt 4)].
Proof.
  intros disk w. split.
  - refine (proj2 (proj2 (proj2
              (X4_load_changes_inventory_only_on_object w "in.json" _)))
              eq_refl).
    intros text H. discriminate H.
  - destruct (X4_load_changes_inventory_only_on_object w "list.json")
      as [_ [_ [[S|[text [d [F [E _]]]]] _]]].
    + intros text H. injection H as <-. discriminate.
    + exact S.
    + injection F as <-. discriminate E.
Defined.

(** ** Inventories built by calls *)

Lemma add_item_keeps_named item qty logs now w :
  sound (stock_data w) -> named (stock_data w) ->
  named (stock_data (snd (add_item item qty logs now w))).
Proof.
  intros [Hwf Inv] Hn.
  destruct (add_rejects item qty) eqn:R.
  - destruct (add_item_rejected item qty logs now w R) as [r [-> _]].
    exact Hn.
  - unfold add_rejects in R. apply orb_false_iff in R as [Rs Rq].
    destruct item; try discriminate.
    destruct (int_value qty) as [q|] eqn:Hq; [|discriminate].
    apply Z.ltb_ge in Rq.
    destruct s as [|c s].
    + rewrite (add_item_empty_name _ _ _ _ _ Hq Rq). exact Hn.
    + destruct (stored_non_negative (String c s) _ Inv) as [z [Hz Hz0]].
      rewrite (add_item_accepted (String c s) qty q (PInt z) z logs now w
                 ltac:(discriminate) Hq Rq Hz eq_refl).
      cbn [snd stock_data]. apply Forall_set; [exact Hn | discriminate].
Qed.

Lemma remove_item_keeps_named item qty w :
  sound (stock_data w) -> named (stock_data w) ->
  named (stock_data (snd (remove_item item qty w))).
Proof.
  intros [Hwf Inv] Hn.
  destruct (remove_rejects item qty) eqn:R.
  - destruct (remove_item_rejected item qty w R) as [r [-> _]]. exact Hn.
  - unfold remove_rejects in R. apply orb_false_iff in R as [Rs Rq].
    destruct item; try discriminate.
    destruct (int_value qty) as [q|] eqn:Hq; [|discriminate].
    apply Z.leb_gt in Rq.
    destruct (Dict.get s (stock_data w)) as [v|] eqn:G.
    + assert (Hv : non_negative_entry (s, v)).
      { rewrite Forall_forall in Inv. apply Inv. now apply get_In. }
      destruct Hv as [z [Hz Hz0]]. simpl in Hz. subst v.
      rewrite (remove_item_found s qty q (PInt z) z w Hq Rq G eq_refl).
      cbn [snd stock_data].
      destruct (z - q <=? 0); [now apply Forall_del|].
      apply Forall_set; [exact Hn|].
      unfold named in Hn. rewrite Forall_forall in Hn.
      exact (Hn _ (get_In s _ _ G)).
    + rewrite (remove_item_missing s qty q w Hq Rq G). exact Hn.
Qed.

Lemma run_ops_keep_named os : forall w w',
  sound (stock_data w) -> named (stock_data w) ->
  run_ops os w = (Return tt, w') ->
  named (stock_data w').
Proof.
  induction os as [|o os IH]; intros w w' Inv Hn; simpl.
  - now intros [= <-].
  - destruct (run_op_keeps_sound o w Inv) as [w1 [E1 [Inv1 _]]].
    unfold bind. rewrite E1. apply IH; [exact Inv1|].
    replace w1 with (snd (run_op o w)) by now rewrite E1.
    destruct o as [item qty logs now | item qty]; simpl.
    + unfold bind.
      pose proof (add_item_keeps_named item qty logs now w Inv Hn) as H.
      destruct (add_item item qty logs now w) as [[l| |] w2]; exact H.
    + now apply remove_item_keeps_named.
Qed.

(** X10: from the empty inventory, every sequence of [add_item] and
    [remove_item] calls whose [logs] argument is [None] or a list
    returns, whatever items and quantities are passed; the keys it
    leaves are pairwise distinct and none is the empty string; and the
    disk is as it was. *)
Theorem X10_built_inventory_has_proper_keys :
  forall (os : list op) (lg : list record) (fs : string -> node),
  exists w',
    run_ops os (mkWorld [] lg fs) = (Return tt, w') /\
    NoDup (Dict.keys (stock_data w')) /\
    Forall (fun k => k <> "") (Dict.keys (stock_data w')) /\
    files w' = fs.
Proof.
  intros os lg fs.
  destruct (run_ops_keep_sound os (mkWorld [] lg fs) sound_empty)
    as [w' [E [Inv F]]].
  exists w'. split; [exact E|]. split; [apply Inv|]. split; [|exact F].
  assert (Hn : named (stock_data w')).
  { apply (run_ops_keep_named os (mkWorld [] lg fs) w' sound_empty);
      [constructor | exact E]. }
  unfold Dict.keys. apply Forall_map. exact Hn.
Qed.

(** X2: on an inventory built from nothing by [add_item] and
    [remove_item] calls, [get_qty] of any argument returns an integer that
    is zero or more, and changes neither inventory nor files; for an
    argument that is not a string the answer is 0. *)
Theorem X2_get_qty_on_built_inventory :
  forall (os : list op) (lg : list record) (fs : string -> node)
         (item : pyval),
  exists w' z,
    run_ops os (mkWorld [] lg fs) = (Return tt, w') /\
    fst (get_qty item w') = Return (PInt z) /\ 0 <= z /\
    stock_data (snd (get_qty item w')) = stock_data w' /\
    files (snd (get_qty item w')) = files w' /\
    (isinstance_str item = false -> z = 0).
Proof.
  intros os lg fs item.
  destruct (run_ops_keep_sound os (mkWorld [] lg fs) sound_empty)
    as [w' [E [[_ Inv] _]]].
  exists w'.
  destruct item as [| | |name| |];
    try (exists 0; repeat split; auto; lia).
  destruct (stored_non_negative name _ Inv) as [z [Hz Hz0]].
  exists z. rewrite get_qty_str. cbn [fst snd]. rewrite Hz.
  repeat split; auto. discriminate.
Qed.



(** ** The run of [main] *)

Lemma bind_return {A B} (m : M A) (k : A -> M B) w a w' :
  m w = (Return a, w') -> bind m k w = k a w'.
Proof. intros E. unfold bind. now rewrite E. Qed.

Lemma sound_quantity name w :
  sound (stock_data w) -> exists z, quantity name w = PInt z /\ 0 <= z.
Proof. intros [_ Inv]. now apply stored_non_negative. Qed.

Lemma sound_set name z d :
  sound d -> 0 <= z -> sound (Dict.set name (PInt z) d).
Proof.
  intros [Hwf Inv] Hz. split; [now apply wf_set|].
  apply Forall_set; auto. exists z. auto.
Qed.

Lemma quantity_set_same name v w lg fs :
  quantity name (mkWorld (Dict.set name v (stock_data w)) lg fs) = v.
Proof. unfold quantity, Dict.get_default. cbn. now rewrite get_set_same. Qed.

Lemma sound_int_valued d : sound d -> int_valued d = true.
Proof.
  intros [_ Inv]. unfold int_valued. apply forallb_forall.
  intros kv Hin. rewrite Forall_forall in Inv.
  destruct (Inv kv Hin) as [z [-> _]]. reflexivity.
Qed.

(** What [main] has done when it reaches [save_data]: [k] stands for the
    rest of its body, and [a], [b], [o] for the quantities of apple,
    banana and orange held before. *)
Lemma main_before_saving t0 t1 t2 w a b o (k : M unit) :
  sound (stock_data w) ->
  quantity "apple" w = PInt a ->
  quantity "banana" w = PInt b ->
  quantity "orange" w = PInt o ->
  0 <= a -> 0 <= b -> 0 <= o ->
  let d :=
    Dict.set "orange" (PInt (o + 5 - 1))
      (Dict.set "apple" (PInt (a + 10 - 3))
         (Dict.set "orange" (PInt (o + 5))
            (Dict.set "banana" (PInt (b + 2))
               (Dict.set "apple" (PInt (a + 10)) (stock_data w))))) in
  sound d /\
  (add_item (PStr "apple") (PInt 10) None t0 ;;
   add_item (PStr "banana") (PInt 2) None t1 ;;
   add_item (PStr "orange") (PInt 5) None t2 ;;
   remove_item (PStr "apple") (PInt 3) ;;
   remove_item (PStr "orange") (PInt 1) ;;
   q <- get_qty (PStr "apple") ;;
   logging_info "Apple stock: %s" [AVal q] ;;
   low <- check_low_items default_threshold ;;
   logging_info "Low items: %s" [AVal (PList (map PStr low))] ;;
   k) w =
  k (mkWorld d
       (log w ++
        [mkRecord INFO "Apple stock: %s" [AVal (PInt (a + 10 - 3))] None;
         mkRecord INFO "Low items: %s"
           [AVal (PList (map PStr (below 5 d)))] None])
       (files w)).
Proof.
  intros Inv Ha Hb Ho Ha0 Hb0 Ho0 d.
  assert (Hd : sound d).
  { unfold d. repeat apply sound_set; auto; lia. }
  split; [exact Hd|].
  rewrite (bind_return _ _ w _ _
             (add_item_accepted "apple" (PInt 10) 10 (PInt a) a None t0 w
                ltac:(discriminate) eq_refl ltac:(lia) Ha eq_refl)).
  cbv beta. set (d1 := Dict.set "apple" (PInt (a + 10)) (stock_data w)).
  rewrite (bind_return _ _ _ _ _
             (add_item_accepted "banana" (PInt 2) 2 (PInt b) b None t1
                (mkWorld d1 (log w) (files w))
                ltac:(discriminate) eq_refl ltac:(lia)
                ltac:(cbn [stock_data]; unfold d1, Dict.get_default;
                      rewrite get_set_other by discriminate; exact Hb)
                eq_refl)).
  cbv beta. cbn [stock_data log files].
  set (d2 := Dict.set "banana" (PInt (b + 2)) d1).
  rewrite (bind_return _ _ _ _ _
             (add_item_accepted "orange" (PInt 5) 5 (PInt o) o None t2
                (mkWorld d2 (log w) (files w))
                ltac:(discriminate) eq_refl ltac:(lia)
                ltac:(cbn [stock_data]; unfold d2, d1, Dict.get_default;
                      rewrite !get_set_other by discriminate; exact Ho)
                eq_refl)).
  cbv beta. cbn [stock_data log files].
  set (d3 := Dict.set "orange" (PInt (o + 5)) d2).
  assert (R1 : remove_item (PStr "apple") (PInt 3)
                 (mkWorld d3 (log w) (files w)) =
               (Return tt,
                mkWorld (Dict.set "apple" (PInt (a + 10 - 3)) d3)
                  (log w) (files w))).
  { rewrite (remove_item_found "apple" (PInt 3) 3 (PInt (a + 10)) (a + 10)
               (mkWorld d3 (log w) (files w)) eq_refl ltac:(lia));
      [| |reflexivity].
    - replace (a + 10 - 3 <=? 0) with false
        by (symmetry; apply Z.leb_gt; lia).
      reflexivity.
    - cbn [stock_data]. unfold d3, d2, d1.
      rewrite !get_set_other by discriminate. apply get_set_same. }
  rewrite (bind_return _ _ _ _ _ R1). cbv beta.
  set (d4 := Dict.set "apple" (PInt (a + 10 - 3)) d3).
  assert (R2 : remove_item (PStr "orange") (PInt 1)
                 (mkWorld d4 (log w) (files w)) =
               (Return tt, mkWorld d (log w) (files w))).
  { rewrite (remove_item_found "orange" (PInt 1) 1 (PInt (o + 5)) (o + 5)
               (mkWorld d4 (log w) (files w)) eq_refl ltac:(lia));
      [| |reflexivity].
    - replace (o + 5 - 1 <=? 0) with false
        by (symmetry; apply Z.leb_gt; lia).
      reflexivity.
    - cbn [stock_data]. unfold d4, d3.
      rewrite get_set_other by discriminate. apply get_set_same. }
  rewrite (bind_return _ _ _ _ _ R2). cbv beta.
  assert (Q : get_qty (PStr "apple") (mkWorld d (log w) (files w)) =
              (Return (PInt (a + 10 - 3)), mkWorld d (log w) (files w))).
  { rewrite get_qty_str. cbn [stock_data]. unfold d, Dict.get_default.
    rewrite get_set_other by discriminate. now rewrite get_set_same. }
  rewrite (bind_return _ _ _ _ _ Q). cbv beta.
  rewrite (bind_return (logging_info _ _) _ _ tt _ eq_refl). cbv beta.
  cbn [stock_data log files].
  assert (L : forall lg,
            check_low_items default_threshold (mkWorld d lg (files w)) =
            (Return (below 5 d), mkWorld d lg (files w))).
  { intros lg. apply (check_low_items_below (mkWorld d lg (files w))
                        default_threshold 5).
    - apply Hd.
    - now apply sound_int_valued.
    - reflexivity. }
  rewrite (bind_return _ _ _ _ _ (L _)). cbv beta.
  rewrite (bind_return (logging_info _ _) _ _ tt _ eq_refl).
  cbn [stock_data log files]. now rewrite <- app_assoc.
Qed.




(** X13: from an inventory that calls of [add_item] and [remove_item]
    could have built, when permission to open [inventory.json] is
    missing, [main] does not return.  It changes the three quantities
    and logs its two records as in any run, [save_data] logs one error
    that carries the [PermissionError], and the [PermissionError] of
    [load_data], which nothing handles, ends the run before
    [print_data]; no file is changed. *)
Theorem X13_main_raises_without_file_access :
  forall (t0 t1 t2 : string) (w : world),
    sound (stock_data w) ->
    files w "inventory.json" = Locked ->
    exists (w' : world) (a b o : Z),
      quantity "apple" w = PInt a /\
      quantity "banana" w = PInt b /\
      quantity "orange" w = PInt o /\
      main t0 t1 t2 w = (Raise PermissionError, w') /\
      quantity "apple" w' = PInt (a + 7) /\
      quantity "banana" w' = PInt (b + 2) /\
      quantity "orange" w' = PInt (o + 4) /\
      (forall other,
         other <> "apple" -> other <> "banana" -> other <> "orange" ->
         Dict.get other (stock_data w') = Dict.get other (stock_data w)) /\
      log w' =
        (log w ++
         [mkRecord INFO "Apple stock: %s" [AVal (PInt (a + 7))] None;
          mkRecord INFO "Low items: %s"
            [AVal (PList (map PStr (below 5 (stock_data w'))))] None;
          mkRecord ERROR "save_data: failed to write to %s"
            [AVal (PStr "inventory.json")] (Some PermissionError)])%list /\
      files w' = files w.
Proof.
  intros t0 t1 t2 w Inv Hf.
  destruct (sound_quantity "apple" w Inv) as [a [Ha Ha0]].
  destruct (sound_quantity "banana" w Inv) as [b [Hb Hb0]].
  destruct (sound_quantity "orange" w Inv) as [o [Ho Ho0]].
  pose proof (main_before_saving t0 t1 t2 w a b o
                (save_data "inventory.json" ;;
                 load_data "inventory.json" ;; print_data)
                Inv Ha Hb Ho Ha0 Hb0 Ho0) as H.
  cbv zeta in H. destruct H as [_ H].
  set (d := Dict.set "orange" (PInt (o + 5 - 1)) _) in *.
  set (lg := (log w ++ _)%list) in H.
  set (lg' := (lg ++
               [mkRecord ERROR "save_data: failed to write to %s"
                  [AVal (PStr "inventory.json")] (Some PermissionError)])%list).
  assert (E : main t0 t1 t2 w =
              (Raise PermissionError, mkWorld d lg' (files w))).
  { unfold main. rewrite H.
    rewrite (bind_return _ _ _ _ _
               (save_data_locked "inventory.json"
                  (mkWorld d lg (files w)) eq_refl Hf)).
    cbv beta. cbn [stock_data log files]. fold lg'.
    unfold bind at 1, load_data, read_text. run_monad. cbn [files].
    rewrite Hf. reflexivity. }
  exists (mkWorld d lg' (files w)), a, b, o.
  split; [exact Ha|]. split; [exact Hb|]. split; [exact Ho|].
  split; [exact E|].
  unfold quantity, Dict.get_default. cbn [stock_data log files].
  split; [|split; [|split; [|split; [|split]]]].
  - unfold d. rewrite get_set_other by discriminate. rewrite get_set_same.
    f_equal. lia.
  - unfold d. rewrite !get_set_other by discriminate.
    now rewrite get_set_same.
  - unfold d. rewrite get_set_same. f_equal. lia.
  - intros other H1 H2 H3. unfold d. rewrite !get_set_other by congruence.
    reflexivity.
  - unfold lg', lg. rewrite <- app_assoc. cbn [app].
    replace (a + 10 - 3) with (a + 7) by lia. reflexivity.
  - reflexivity.
Qed.

Lemma X13_main_raises_without_file_access_witness :
  let disk := fun p => if String.eqb p "inventory.json" then Locked
                       else Absent in
  exists w',
    main "t0" "t1" "t2" (mkWorld [] [] disk) = (Raise PermissionError, w') /\
    stock_data w' =
      [("apple", PInt 7); ("banana", PInt 2); ("orange", PInt 4)] /\
    List.length (log w') = 3%nat.
Proof.
  intros disk.
  destruct (X13_main_raises_without_file_access "t0" "t1" "t2"
              (mkWorld [] [] disk) sound_empty eq_refl)
    as [w' [a [b [o [_ [_ [_ [E [_ [_ [_ [_ [L _]]]]]]]]]]]]].
  exists w'. split; [exact E|].
  injection E as <-. split; reflexivity.
Defined.

(** ** Thresholds and the log list *)

Lemma below_monotone t1 t2 d : t1 <= t2 -> incl (below t1 d) (below t2 d).
Proof.
  intros Ht k Hin. unfold below in *.
  apply in_map_iff in Hin as [kv [<- Hin]]. apply in_map.
  apply filter_In in Hin as [Hin Hq]. apply filter_In. split; [exact Hin|].
  destruct (int_value (snd kv)) as [q|]; [|discriminate].
  apply Z.ltb_lt in Hq. apply Z.ltb_lt. lia.
Qed.

(** X14: on an inventory of integer quantities, a higher threshold
    never drops a name: every name [check_low_items] returns for a
    threshold is returned for every threshold above it. *)
Theorem X14_higher_threshold_keeps_names :
  forall (w : world) (t1 t2 : Z),
    Dict.wf (stock_data w) ->
    int_valued (stock_data w) = true ->
    t1 <= t2 ->
    exists names1 names2,
      check_low_items (PInt t1) w = (Return names1, w) /\
      check_low_items (PInt t2) w = (Return names2, w) /\
      incl names1 names2.
Proof.
  intros w t1 t2 Hwf Hint Ht.
  exists (below t1 (stock_data w)), (below t2 (stock_data w)).
  split; [now apply check_low_items_below|].
  split; [now apply check_low_items_below|].
  now apply below_monotone.
Qed.

Lemma X14_higher_threshold_keeps_names_witness :
  let w := mkWorld [("pear", PInt 4); ("plum", PInt 1)] [] no_files in
  exists names1 names2,
    check_low_items (PInt 2) w = (Return names1, w) /\
    check_low_items (PInt 5) w = (Return names2, w) /\
    incl names1 names2.
Proof.
  intros w. apply (X14_higher_threshold_keeps_names w 2 5).
  - unfold Dict.wf. simpl. repeat constructor; simpl; intuition discriminate.
  - reflexivity.
  - lia.
Defined.

(** X15: the list passed as [logs].  When [add_item] returns, either it
    wrote no entry and the list is as it was, or it wrote the entry of a
    named item, logged nothing, and put exactly one message at the end of
    the list, naming the clock reading, the quantity and the item. *)
Theorem X15_one_message_per_written_entry :
  forall (item qty : pyval) (logs : option (list pyval)) (now : string)
         (w w' : world) (l : list pyval),
    add_item item qty logs now w = (Return l, w') ->
    (l = sink logs /\ stock_data w' = stock_data w) \/
    (exists name q v,
       item = PStr name /\ name <> "" /\
       int_value qty = Some q /\ 0 <= q /\
       l = (sink logs ++
            [PStr (now ++ ": Added " ++ str_of_int_instance qty q
                       ++ " of " ++ name)])%list /\
       stock_data w' = Dict.set name v (stock_data w) /\
       log w' = log w).
Proof.
  intros item qty logs now w w' l. unfold add_item.
  destruct item as [| | |name| |];
    try (intros [= <- <-]; left; split; reflexivity).
  destruct (int_value qty) as [q|] eqn:Hq;
    [|intros [= <- <-]; left; split; reflexivity].
  destruct (q <? 0) eqn:Eq; [intros [= <- <-]; left; split; reflexivity|].
  apply Z.ltb_ge in Eq.
  destruct name as [|c name]; [intros [= <- <-]; left; split; reflexivity|].
  cbn [str_truthy negb]. run_monad.
  destruct (py_add _ qty) as [v| |]; try discriminate.
  intros [= <- <-]. right. exists (String c name), q, v.
  repeat split; auto. discriminate.
Qed.

Lemma X15_one_message_per_written_entry_witness :
  let w := mkWorld [] [] no_files in
  let w' := mkWorld [("pear", PInt 12)] [] no_files in
  let l := [PStr "earlier"; PStr "noon: Added 12 of pear"] in
  add_item (PStr "pear") (PInt 12) (Some [PStr "earlier"]) "noon" w =
    (Return l, w') /\
  ((l = [PStr "earlier"] /\ stock_data w' = stock_data w) \/
   (exists name q v,
      PStr "pear" = PStr name /\ name <> "" /\
      int_value (PInt 12) = Some q /\ 0 <= q /\
      l = ([PStr "earlier"] ++
           [PStr ("noon" ++ ": Added " ++ str_of_int_instance (PInt 12) q
                    ++ " of " ++ name)])%list /\
      stock_data w' = Dict.set name v (stock_data w) /\
      log w' = log w)).
Proof.
  intros w w' l. split; [reflexivity|].
  exact (X15_one_message_per_written_entry (PStr "pear") (PInt 12)
           (Some [PStr "earlier"]) "noon" w w' l eq_refl).
Defined.

(** A comparison returns a truth value or raises [TypeError]; nothing
    else. *)
Lemma py_order_cases strict a : forall b,
  (exists r, py_order strict a b = Return r) \/
  py_order strict a b = Raise TypeError.
Proof.
  induction a as [|x|z|s|l IH|d IH] using value_induction; intros b;
    try (destruct b; simpl; eauto; fail).
  destruct b as [| | | |m|]; simpl; auto.
  revert m. induction IH as [|x l Hx Hl IHl]; intros m.
  - destruct m; eauto.
  - destruct m as [|y m]; [eauto|].
    destruct (py_eq x y); [apply IHl | apply Hx].
Qed.

Lemma low_loop_incomparable th w : forall d2 d1 acc,
  stock_data w = (d1 ++ d2)%list ->
  Dict.wf (d1 ++ d2)%list ->
  comparable th d2 = false ->
  low_loop th (Dict.keys d2) acc w = (Raise TypeError, w).
Proof.
  induction d2 as [|[k v] d2 IH]; intros d1 acc Hw Hwf Hc; [discriminate|].
  cbn [Dict.keys map fst low_loop].
  assert (G : Dict.get k (stock_data w) = Some v).
  { rewrite Hw, get_app_absent.
    - simpl. now rewrite String.eqb_refl.
    - unfold Dict.wf, Dict.keys in Hwf. rewrite map_app in Hwf. simpl in Hwf.
      apply NoDup_remove_2 in Hwf. intros Hin. apply Hwf, in_or_app.
      now left. }
  run_monad. unfold Dict.get_default. rewrite G.
  unfold comparable in Hc. cbn [forallb snd] in Hc. unfold py_lt in *.
  destruct (py_order_cases true v th) as [[b E] | E]; rewrite E in *.
  - cbn [andb] in Hc. fold (Dict.keys d2).
    apply (IH (d1 ++ [(k, v)])%list); [now rewrite <- app_assoc | | exact Hc].
    now rewrite <- app_assoc.
  - reflexivity.
Qed.

(** X16: on a dictionary with distinct keys, [check_low_items] never
    changes the world.  When every stored value can be compared with the
    threshold it returns, in dictionary order, the names of the values
    below it; when one cannot, it raises [TypeError]. *)
Theorem X16_check_low_items_returns_or_raises :
  forall (w : world) (th : pyval),
    Dict.wf (stock_data w) ->
    check_low_items th w =
      (if comparable th (stock_data w)
       then Return (map fst (filter (fun kv => is_below th (snd kv))
                               (stock_data w)))
       else Raise TypeError,
       w).
Proof.
  intros w th Hwf. destruct (comparable th (stock_data w)) eqn:Hc.
  - now apply check_low_items_comparable.
  - unfold check_low_items. run_monad.
    exact (low_loop_incomparable th w (stock_data w) [] [] eq_refl Hwf Hc).
Qed.

Lemma X16_check_low_items_returns_or_raises_witness :
  let w := mkWorld [("pear", PStr "b"); ("plum", PStr "d")] [] no_files in
  check_low_items (PStr "c") w = (Return ["pear"], w) /\
  check_low_items (PInt 5) w = (Raise TypeError, w).
Proof.
  intros w. split.
  - apply (X16_check_low_items_returns_or_raises w (PStr "c")).
    unfold Dict.wf. simpl. repeat constructor; simpl; intuition discriminate.
  - apply (X16_check_low_items_returns_or_raises w (PInt 5)).
    unfold Dict.wf. simpl. repeat constructor; simpl; intuition discriminate.
Defined.
